(** * BrewPiProcess.py: conflict detection between running BrewPi instances

    A shallow embedding of [BrewPiProcess.py]: the record class
    [BrewPiProcess] (pid, cfg, port, sock), its methods [quit], [kill] and
    [conflict], and the registry class [BrewPiProcesses] ([update],
    [parseProcess], [get], [me], [findConflicts], [quitAll], [killAll]).

    Python values are a small tagged union, a configuration is a finite map
    from keys to values, exceptions are an explicit result type, and the
    operating system (process table, listening sockets, console) is an
    explicit world threaded through a state-and-error monad. *)

From Stdlib Require Import ZArith List Bool Lia.
From Stdlib Require Import Strings.String Strings.Ascii.
From stdpp Require Import base decidable option list strings gmap pretty.

Local Open Scope Z_scope.
Local Open Scope string_scope.
Local Open Scope list_scope.

(** ** Python values *)

(** The values that the fields of a record hold: [None], an integer or a
    string.  Values of different kinds are never equal. *)
Inductive pyval : Type :=
  | PyNone
  | PyInt (z : Z)
  | PyStr (s : string).

#[global] Instance pyval_eq_dec : EqDecision pyval.
Proof. solve_decision. Defined.

(** Python's [a == b] on these values. *)
Definition py_eq (a b : pyval) : bool := bool_decide (a = b).

(** Python's [sub in s] on strings: [sub] occurs in [s] as a substring. *)
Fixpoint contains (sub s : string) : bool :=
  if String.prefix sub s then true
  else match s with
       | EmptyString => false
       | String _ s' => contains sub s'
       end.

(** Truth value of a Python integer, as tested by [if]. *)
Definition truthy (z : Z) : bool := negb (Z.eqb z 0).

(** The exceptions that the modelled code can raise. *)
Inductive Exn : Type :=
  | AttributeError          (* attribute access on None *)
  | KeyError (k : string)   (* missing dictionary key *)
  | TypeError               (* %d applied to a non-number *)
  | ValueError              (* psutil.Process of a non-integer *)
  | NoSuchProcess (p : Z)   (* psutil: the pid does not exist (any more) *)
  | AccessDenied (p : Z).   (* psutil: no permission to signal the pid *)

Inductive Res (A : Type) : Type :=
  | Ok (a : A)
  | Raise (e : Exn).
Arguments Ok {A} a.
Arguments Raise {A} e.

(** ** The data model *)

(** A loaded configuration (a ConfigObj): a dictionary from keys to values. *)
Abbreviation Config := (gmap string pyval).

(** The fields of a [BrewPiSocket] object that this module reads. *)
Record BrewPiSocket : Type := mkSocket {
  sock_type : pyval;
  sock_file : pyval;
  sock_host : pyval;
  sock_port : pyval
}.

#[global] Instance BrewPiSocket_eq_dec : EqDecision BrewPiSocket.
Proof. solve_decision. Defined.

(** [class BrewPiProcess]: every field is [None] after [__init__]. *)
Record BrewPiProcess : Type := mkProcess {
  pid : pyval;
  cfg : option Config;
  port : pyval;
  sock : option BrewPiSocket
}.

Definition BrewPiProcess_init : BrewPiProcess :=
  {| pid := PyNone; cfg := None; port := PyNone; sock := None |}.

(** Attribute access [obj.sock.<field>]: fails on [None]. *)
Definition sock_attr (f : BrewPiSocket -> pyval) (s : option BrewPiSocket)
  : Res pyval :=
  match s with
  | Some k => Ok (f k)
  | None => Raise AttributeError
  end.

(** Builds the four-element list [[s.type, s.file, s.host, s.port]],
    evaluating the attribute accesses from left to right. *)
Definition sock_fields (s : option BrewPiSocket) : Res (list pyval) :=
  match sock_attr sock_type s with
  | Raise e => Raise e
  | Ok t =>
    match sock_attr sock_file s with
    | Raise e => Raise e
    | Ok f =>
      match sock_attr sock_host s with
      | Raise e => Raise e
      | Ok h =>
        match sock_attr sock_port s with
        | Raise e => Raise e
        | Ok p => Ok [t; f; h; p]
        end
      end
    end
  end.

(** Python's [==] on lists of values: same length, elementwise equal. *)
Fixpoint pylist_eq (l1 l2 : list pyval) : bool :=
  match l1, l2 with
  | [], [] => true
  | x :: l1', y :: l2' => py_eq x y && pylist_eq l1' l2'
  | _, _ => false
  end.

(** [BrewPiProcess.conflict(self, otherProcess)].  The left operand of the
    list comparison (the fields of [otherProcess.sock]) is evaluated first. *)
Definition conflict (self otherProcess : BrewPiProcess) : Res Z :=
  if py_eq (pid self) (pid otherProcess) then Ok 0
  else if bool_decide (cfg otherProcess = cfg self) then Ok 1
  else if py_eq (port otherProcess) (port self) then Ok 1
  else
    match sock_fields (sock otherProcess) with
    | Raise e => Raise e
    | Ok lo =>
      match sock_fields (sock self) with
      | Raise e => Raise e
      | Ok ls => if pylist_eq lo ls then Ok 1 else Ok 0
      end
    end.

(** ** The operating system as seen by this module *)

(** One entry of the process table, as [psutil] exposes it: [_pid], [name]
    and [cmdline]; [killable] says whether the caller may signal it. *)
Record OsProcess : Type := mkOsProcess {
  _pid : Z;
  name : string;
  cmdline : list string;
  killable : bool
}.

(** What the console, the sockets and the kernel observe, in order. *)
Inductive Event : Type :=
  | Stdout (line : string)
  | Stderr (line : string)
  | Connect (s : BrewPiSocket)
  | Send (s : BrewPiSocket) (msg : string)
  | Close (s : BrewPiSocket)
  | Sigkill (p : Z).

(** What the rest of the system does between two calls of this module into
    the process table: nothing, or a process exits. *)
Inductive EnvEvent : Type :=
  | EnvIdle
  | EnvExit (p : Z).

Record World : Type := mkWorld {
  getpid : Z;                       (* os.getpid() *)
  process_table : list OsProcess;   (* in enumeration order *)
  listening : list BrewPiSocket;    (* control sockets that accept *)
  trace : list Event;               (* what has been observed so far *)
  env : list EnvEvent               (* what the environment will do *)
}.

Definition set_table (t : list OsProcess) (w : World) : World :=
  {| getpid := getpid w; process_table := t; listening := listening w;
     trace := trace w; env := env w |}.

Definition set_env (e : list EnvEvent) (w : World) : World :=
  {| getpid := getpid w; process_table := process_table w;
     listening := listening w; trace := trace w; env := e |}.

Definition emit (ev : Event) (w : World) : World :=
  {| getpid := getpid w; process_table := process_table w;
     listening := listening w; trace := trace w ++ [ev]; env := env w |}.

Definition remove_pid (p : Z) (t : list OsProcess) : list OsProcess :=
  List.filter (fun q => negb (Z.eqb (_pid q) p)) t.

Definition find_pid (p : Z) (t : list OsProcess) : option OsProcess :=
  List.find (fun q => Z.eqb (_pid q) p) t.

(** The environment takes its next step.  The calling process itself is
    running, so it does not exit. *)
Definition env_step (w : World) : World :=
  match env w with
  | [] => w
  | EnvIdle :: rest => set_env rest w
  | EnvExit p :: rest =>
      if Z.eqb p (getpid w) then set_env rest w
      else set_env rest (set_table (remove_pid p (process_table w)) w)
  end.

(** ** A state-and-error monad

    A computation runs on a state and returns a value or raises; the state
    it leaves behind is kept in both cases, as Python keeps side effects
    made before an exception. *)
Definition M (S A : Type) : Type := S -> Res A * S.

Definition ret {S A} (a : A) : M S A := fun s => (Ok a, s).

Definition bind {S A B} (m : M S A) (k : A -> M S B) : M S B :=
  fun s => match m s with
           | (Ok a, s') => k a s'
           | (Raise e, s') => (Raise e, s')
           end.

Definition raise {S A} (e : Exn) : M S A := fun s => (Raise e, s).

Definition gets {S A} (f : S -> A) : M S A := fun s => (Ok (f s), s).

Definition modify {S} (f : S -> S) : M S unit := fun s => (Ok tt, f s).

Definition lift_res {S A} (r : Res A) : M S A := fun s => (r, s).

(** [try: body  except <handles>: handler]. *)
Definition try_except {S A} (body : M S A) (handles : Exn -> bool)
    (handler : M S A) : M S A :=
  fun s => match body s with
           | (Ok a, s') => (Ok a, s')
           | (Raise e, s') => if handles e then handler s' else (Raise e, s')
           end.

Notation "x <- m ;; k" := (bind m (fun x => k))
  (at level 100, m at next level, right associativity).
Notation "m ;;; k" := (bind m (fun _ => k))
  (at level 100, right associativity).

(** [for x in l: body x]. *)
Fixpoint for_each {S A} (l : list A) (body : A -> M S unit) : M S unit :=
  match l with
  | [] => ret tt
  | x :: rest => body x ;;; for_each rest body
  end.

(** ** Library calls *)

Definition print (line : string) : M World unit := modify (emit (Stdout line)).
Definition print_stderr (line : string) : M World unit :=
  modify (emit (Stderr line)).

(** ["%s" % v]. *)
Definition fmt_s (v : pyval) : string :=
  match v with
  | PyNone => "None"
  | PyInt z => pretty z
  | PyStr s => s
  end.

(** ["%d" % v]: a number is required. *)
Definition fmt_d {S} (v : pyval) : M S string :=
  match v with
  | PyInt z => ret (pretty z)
  | _ => raise TypeError
  end.

(** [psutil.process_iter()]: the processes that exist now. *)
Definition process_iter : M World (list OsProcess) := gets process_table.

(** [psutil.Process(pid)]: the pid must be an integer and must exist. *)
Definition psutil_Process (p : pyval) : M World OsProcess :=
  match p with
  | PyInt z =>
      modify env_step ;;;
      t <- gets process_table ;;
      match find_pid z t with
      | Some q => ret q
      | None => raise (NoSuchProcess z)
      end
  | _ => raise ValueError
  end.

(** [process.kill()]: sends SIGKILL; fails when the process is gone or
    when the caller may not signal it. *)
Definition process_kill (process : OsProcess) : M World unit :=
  modify env_step ;;;
  t <- gets process_table ;;
  match find_pid (_pid process) t with
  | None => raise (NoSuchProcess (_pid process))
  | Some q =>
      if killable q then
        modify (emit (Sigkill (_pid q))) ;;;
        modify (fun w => set_table (remove_pid (_pid q) (process_table w)) w)
      else raise (AccessDenied (_pid q))
  end.

(** Modelled from the spec: [BrewPiSocket.connect], which is not part of
    this file.  It opens a connection to the control socket and returns it,
    or returns [False] when the connection cannot be established. *)
Definition BrewPiSocket_connect (s : BrewPiSocket)
  : M World (option BrewPiSocket) :=
  modify (emit (Connect s)) ;;;
  l <- gets listening ;;
  if bool_decide (s ∈ l) then ret (Some s) else ret None.

Definition conn_send (c : BrewPiSocket) (msg : string) : M World unit :=
  modify (emit (Send c msg)).

Definition conn_close (c : BrewPiSocket) : M World unit :=
  modify (emit (Close c)).

(** ** Methods of [BrewPiProcess] *)

(** [BrewPiProcess.quit]. *)
Definition quit (self : BrewPiProcess) : M World unit :=
  match sock self with
  | Some s =>
      conn <- BrewPiSocket_connect s ;;
      match conn with
      | Some c =>
          conn_send c "quit" ;;;
          conn_close c ;;;
          print ("Quit message sent to BrewPi instance with pid "
                 ++ fmt_s (pid self) ++ "!")
      | None =>
          print "Could not connect to socket of BrewPi process, maybe it just started and is not listening yet." ;;;
          d <- fmt_d (pid self) ;;
          print ("Could not send quit message to BrewPi instance with pid "
                 ++ d ++ "!")
      end
  | None => ret tt
  end.

Definition is_AccessDenied (e : Exn) : bool :=
  match e with AccessDenied _ => true | _ => false end.

(** [BrewPiProcess.kill]: [psutil.Process(self.pid)] is outside the [try]. *)
Definition kill (self : BrewPiProcess) : M World unit :=
  process <- psutil_Process (pid self) ;;
  try_except
    (process_kill process ;;;
     d <- fmt_d (pid self) ;;
     print ("SIGKILL sent to BrewPi instance with pid " ++ d ++ "!"))
    is_AccessDenied
    (d <- fmt_d (pid self) ;;
     print_stderr ("Cannot kill process " ++ d
                   ++ ", you need root permission to do that.") ;;;
     print_stderr "Is the process running under the same user?").

(** ** The registry [BrewPiProcesses] *)

(** [class BrewPiProcesses]: [self.list]. *)
Record BrewPiProcesses : Type := mkRegistry {
  self_list : list BrewPiProcess
}.

Definition BrewPiProcesses_init : BrewPiProcesses := {| self_list := [] |}.

(** A registry object together with the world it runs in. *)
Record St : Type := mkSt {
  world : World;
  self : BrewPiProcesses
}.

(** Runs a computation on the world; the registry object is not touched. *)
Definition in_world {A} (m : M World A) : M St A :=
  fun st => match m (world st) with
            | (r, w') => (r, {| world := w'; self := self st |})
            end.

Definition set_list (l : list BrewPiProcess) : M St unit :=
  modify (fun st => {| world := world st; self := {| self_list := l |} |}).

(** The argument that [parseProcess] passes to the configuration loader:
    the empty list when no argument names a config file, else the first
    such argument. *)
Inductive CfgArg : Type :=
  | CfgEmptyList
  | CfgFile (path : string).

(** The filter of [update]:
    [any('python' in p.name and 'brewpi.py' in s for s in p.cmdline)]. *)
Definition is_brewpi (p : OsProcess) : bool :=
  existsb (fun s => contains "python" (name p) && contains "brewpi.py" s)
          (cmdline p).

(** [[s for s in process.cmdline if '.cfg' in s]], then [cfg[0]] when the
    list is not empty. *)
Definition cfg_argument (process : OsProcess) : CfgArg :=
  match List.filter (contains ".cfg") (cmdline process) with
  | [] => CfgEmptyList
  | c :: _ => CfgFile c
  end.

(** Dictionary subscript [d[k]]. *)
Definition getitem {S} (d : Config) (k : string) : M S pyval :=
  match d !! k with
  | Some v => ret v
  | None => raise (KeyError k)
  end.

Section Registry.

(** The collaborators that live in other modules of the repository:
    [BrewPiUtil.readCfgWithDefaults], which reads the configuration named
    by its argument from the file system, and the constructor
    [BrewPiSocket.BrewPiSocket]. *)
Variable readCfgWithDefaults : World -> CfgArg -> Config.
Variable BrewPiSocket_new : Config -> BrewPiSocket.

(** [BrewPiProcesses.parseProcess]. *)
Definition parseProcess (process : OsProcess) : M World BrewPiProcess :=
  let bp := BrewPiProcess_init in
  let bp := {| pid := PyInt (_pid process); cfg := cfg bp;
               port := port bp; sock := sock bp |} in
  let cfg_arg := cfg_argument process in
  c <- gets (fun w => readCfgWithDefaults w cfg_arg) ;;
  let bp := {| pid := pid bp; cfg := Some c;
               port := port bp; sock := sock bp |} in
  p <- getitem c "port" ;;
  let bp := {| pid := pid bp; cfg := cfg bp; port := p; sock := sock bp |} in
  let bp := {| pid := pid bp; cfg := cfg bp; port := port bp;
               sock := Some (BrewPiSocket_new c) |} in
  ret bp.

(** The loop of [update]: parse each matching process and append. *)
Fixpoint update_loop (matching : list OsProcess)
    (bpList : list BrewPiProcess) : M World (list BrewPiProcess) :=
  match matching with
  | [] => ret bpList
  | p :: rest =>
      bp <- parseProcess p ;;
      update_loop rest (bpList ++ [bp])
  end.

(** [BrewPiProcesses.update]. *)
Definition update : M St (list BrewPiProcess) :=
  procs <- in_world process_iter ;;
  let matching := List.filter is_brewpi procs in
  bpList <- in_world (update_loop matching []) ;;
  set_list bpList ;;;
  gets (fun st => self_list (self st)).

(** [BrewPiProcesses.get]. *)
Definition get : M St (list BrewPiProcess) :=
  gets (fun st => self_list (self st)).

(** [BrewPiProcesses.me]. *)
Definition me : M St BrewPiProcess :=
  myPid <- in_world (gets getpid) ;;
  myProcess <- in_world (psutil_Process (PyInt myPid)) ;;
  in_world (parseProcess myProcess).

(** The loop of [findConflicts] over the stored list. *)
Fixpoint findConflicts_loop (process : BrewPiProcess)
    (l : list BrewPiProcess) : Res Z :=
  match l with
  | [] => Ok 0
  | p :: rest =>
      if py_eq (pid process) (pid p) then findConflicts_loop process rest
      else match conflict process p with
           | Raise e => Raise e
           | Ok r => if truthy r then Ok 1
                     else findConflicts_loop process rest
           end
  end.

(** [BrewPiProcesses.findConflicts]. *)
Definition findConflicts (process : BrewPiProcess) : M St Z :=
  l <- gets (fun st => self_list (self st)) ;;
  lift_res (findConflicts_loop process l).

(** [BrewPiProcesses.quitAll]. *)
Definition quitAll : M St unit :=
  myPid <- in_world (gets getpid) ;;
  update ;;;
  l <- gets (fun st => self_list (self st)) ;;
  for_each l (fun p =>
    if py_eq (pid p) (PyInt myPid) then ret tt
    else in_world (quit p)).

(** [BrewPiProcesses.killAll]. *)
Definition killAll : M St unit :=
  myPid <- in_world (gets getpid) ;;
  update ;;;
  l <- gets (fun st => self_list (self st)) ;;
  for_each l (fun p =>
    if py_eq (pid p) (PyInt myPid) then ret tt
    else in_world (kill p)).

End Registry.

(** ** Concrete instances

    A loader, a socket constructor, records and worlds on which the
    statements below are evaluated. *)

Definition cfg_a : Config :=
  {[ "port" := PyStr "/dev/ttyUSB0"; "scriptPath" := PyStr "/a/" ]}.

Definition cfg_b : Config :=
  {[ "port" := PyStr "/dev/ttyUSB1"; "scriptPath" := PyStr "/b/" ]}.

(** A loader that knows one configuration file, [/b.cfg], and answers
    every other request with the defaults [cfg_a]. *)
Definition demo_readCfg (w : World) (a : CfgArg) : Config :=
  match a with
  | CfgEmptyList => cfg_a
  | CfgFile p => if String.eqb p "/b.cfg" then cfg_b else cfg_a
  end.

(** A file socket named after the script path of the configuration. *)
Definition demo_socket (c : Config) : BrewPiSocket :=
  {| sock_type := PyStr "f";
     sock_file := match c !! "scriptPath" with
                  | Some (PyStr p) => PyStr (p ++ "BEERSOCKET")
                  | _ => PyNone
                  end;
     sock_host := PyStr "localhost";
     sock_port := PyNone |}.

(** Two records built by hand, as [BrewPiProcess()] followed by
    assignments to [pid], [cfg] and [port] only: [sock] is still [None]. *)
Definition rec_a : BrewPiProcess :=
  {| pid := PyInt 100; cfg := Some cfg_a; port := PyStr "/dev/ttyUSB0";
     sock := None |}.

Definition rec_b : BrewPiProcess :=
  {| pid := PyInt 200; cfg := Some cfg_b; port := PyStr "/dev/ttyUSB1";
     sock := None |}.

(** The same two records as [parseProcess] builds them. *)
Definition parsed_a : BrewPiProcess :=
  {| pid := PyInt 100; cfg := Some cfg_a; port := PyStr "/dev/ttyUSB0";
     sock := Some (demo_socket cfg_a) |}.

Definition parsed_b : BrewPiProcess :=
  {| pid := PyInt 200; cfg := Some cfg_b; port := PyStr "/dev/ttyUSB1";
     sock := Some (demo_socket cfg_b) |}.

(** A third instance, started on the default configuration. *)
Definition parsed_c : BrewPiProcess :=
  {| pid := PyInt 300; cfg := Some cfg_a; port := PyStr "/dev/ttyUSB0";
     sock := Some (demo_socket cfg_a) |}.

Definition proc_init : OsProcess :=
  {| _pid := 1; name := "init"; cmdline := ["/sbin/init"];
     killable := false |}.

Definition proc_100 : OsProcess :=
  {| _pid := 100; name := "python";
     cmdline := ["python"; "brewpi.py"]; killable := true |}.

Definition proc_200 : OsProcess :=
  {| _pid := 200; name := "python";
     cmdline := ["python"; "/home/brewpi/brewpi.py"; "--config"; "/b.cfg"];
     killable := true |}.

Definition proc_300 : OsProcess :=
  {| _pid := 300; name := "python";
     cmdline := ["python"; "brewpi.py"]; killable := true |}.

(** A quiet world: the caller is pid 100, nobody listens, nothing else
    happens. *)
Definition world_quiet : World :=
  {| getpid := 100;
     process_table := [proc_init; proc_100; proc_200; proc_300];
     listening := []; trace := []; env := [] |}.

(** The same world in which pid 200 exits right after it was enumerated. *)
Definition world_race : World :=
  {| getpid := 100;
     process_table := [proc_init; proc_100; proc_200; proc_300];
     listening := []; trace := []; env := [EnvExit 200] |}.

(** A world in which the control socket of [/b/] accepts connections. *)
Definition world_listening : World :=
  {| getpid := 100;
     process_table := [proc_init; proc_100; proc_200; proc_300];
     listening := [demo_socket cfg_b]; trace := []; env := [] |}.

Definition st_quiet : St := {| world := world_quiet; self := BrewPiProcesses_init |}.
Definition st_race : St := {| world := world_race; self := BrewPiProcesses_init |}.

(** The registry as [update] leaves it in the quiet world. *)
Definition st_refreshed : St :=
  {| world := world_quiet;
     self := {| self_list := [parsed_a; parsed_b; parsed_c] |} |}.

(** The record carries a socket descriptor, as every record built by
    [parseProcess] does. *)
Definition has_socket (p : BrewPiProcess) : Prop := sock p <> None.

(** The four socket fields of two descriptors agree. *)
Definition same_socket (s1 s2 : BrewPiSocket) : Prop :=
  sock_type s1 = sock_type s2 /\ sock_file s1 = sock_file s2 /\
  sock_host s1 = sock_host s2 /\ sock_port s1 = sock_port s2.

(** ** Records as dictionaries *)

(** The value of a member variable: a plain value, the configuration or
    the socket object. *)
Inductive attr : Type :=
  | AttrVal (v : pyval)
  | AttrCfg (c : option Config)
  | AttrSock (s : option BrewPiSocket).

(** [BrewPiProcess.as_dict]: [self.__dict__], the member variables by
    name. *)
Definition BrewPiProcess_as_dict (self : BrewPiProcess) : gmap string attr :=
  {[ "pid" := AttrVal (pid self); "cfg" := AttrCfg (cfg self);
     "port" := AttrVal (port self); "sock" := AttrSock (sock self) ]}.

(** The loop of [BrewPiProcesses.as_dict]: the dictionaries of the records
    that are not the caller's. *)
Fixpoint as_dict_loop (myPid : Z) (l : list BrewPiProcess)
    (outputList : list (gmap string attr)) : list (gmap string attr) :=
  match l with
  | [] => outputList
  | p :: rest =>
      if py_eq (pid p) (PyInt myPid) then as_dict_loop myPid rest outputList
      else as_dict_loop myPid rest (outputList ++ [BrewPiProcess_as_dict p])
  end.

Section RegistryDict.

Variable readCfgWithDefaults : World -> CfgArg -> Config.
Variable BrewPiSocket_new : Config -> BrewPiSocket.

(** [BrewPiProcesses.as_dict]. *)
Definition as_dict : M St (list (gmap string attr)) :=
  myPid <- in_world (gets getpid) ;;
  update readCfgWithDefaults BrewPiSocket_new ;;;
  l <- gets (fun st => self_list (self st)) ;;
  ret (as_dict_loop myPid l []).

End RegistryDict.

(** ** Further instances *)

(** A loader whose configurations have no [port] entry. *)
Definition portless_readCfg (w : World) (a : CfgArg) : Config :=
  {[ "scriptPath" := PyStr "/a/" ]}.

(** Pid 200 belongs to another user. *)
Definition proc_200_foreign : OsProcess :=
  {| _pid := 200; name := "python";
     cmdline := ["python"; "brewpi.py"]; killable := false |}.

Definition world_foreign : World :=
  {| getpid := 100;
     process_table := [proc_100; proc_200_foreign; proc_300];
     listening := []; trace := []; env := [] |}.

(** A record with a socket descriptor and no pid. *)
Definition rec_no_pid : BrewPiProcess :=
  {| pid := PyNone; cfg := Some cfg_a; port := PyStr "/dev/ttyUSB0";
     sock := Some (demo_socket cfg_a) |}.

(** What [parseProcess] builds comes from the loaded configuration. *)
Definition derived_from_config (newSocket : Config -> BrewPiSocket)
    (bp : BrewPiProcess) : Prop :=
  (exists z, pid bp = PyInt z) /\
  exists c, cfg bp = Some c /\ c !! "port" = Some (port bp) /\
            sock bp = Some (newSocket c).

(** * Properties *)

(** ** The conflict predicate *)

Lemma py_eq_true (a b : pyval) : py_eq a b = true <-> a = b.
Proof. unfold py_eq. apply bool_decide_eq_true. Qed.

Lemma py_eq_false (a b : pyval) : py_eq a b = false <-> a <> b.
Proof. unfold py_eq. apply bool_decide_eq_false. Qed.

Lemma py_eq_refl (a : pyval) : py_eq a a = true.
Proof. by apply py_eq_true. Qed.

Lemma truthy_0 : truthy 0 = false.
Proof. reflexivity. Qed.

Lemma truthy_1 : truthy 1 = true.
Proof. reflexivity. Qed.

Lemma sock_fields_Some (s : BrewPiSocket) :
  sock_fields (Some s) = Ok [sock_type s; sock_file s; sock_host s; sock_port s].
Proof. reflexivity. Qed.

Lemma sock_fields_None : sock_fields None = Raise AttributeError.
Proof. reflexivity. Qed.

Lemma pylist_eq_fields (s1 s2 : BrewPiSocket) :
  pylist_eq [sock_type s1; sock_file s1; sock_host s1; sock_port s1]
            [sock_type s2; sock_file s2; sock_host s2; sock_port s2] = true
  <-> same_socket s1 s2.
Proof.
  unfold same_socket. cbn [pylist_eq].
  rewrite !andb_true_iff, !py_eq_true. tauto.
Qed.

(** Once the pid, config and port tests have all failed, [conflict] is
    decided by the socket comparison. *)
Lemma conflict_reaches_sockets (a b : BrewPiProcess) :
  pid a <> pid b -> cfg a <> cfg b -> port a <> port b ->
  conflict a b =
    match sock_fields (sock b) with
    | Raise e => Raise e
    | Ok lo => match sock_fields (sock a) with
               | Raise e => Raise e
               | Ok ls => if pylist_eq lo ls then Ok 1 else Ok 0
               end
    end.
Proof.
  intros Hpid Hcfg Hport. unfold conflict.
  apply py_eq_false in Hpid. rewrite Hpid.
  rewrite bool_decide_eq_false_2 by congruence.
  assert (py_eq (port b) (port a) = false) as -> by (apply py_eq_false; congruence).
  reflexivity.
Qed.

(** C8: a record never conflicts with itself: [a.conflict(a)] returns 0,
    whatever the fields of [a] are (also when they are [None]). *)
Theorem conflict_self (a : BrewPiProcess) : conflict a a = Ok 0.
Proof. unfold conflict. by rewrite py_eq_refl. Qed.

(** C9: for two records with distinct pids, unequal configs and unequal
    ports, [conflict] raises an attribute error as soon as either record's
    socket descriptor is [None]; it does not return a number. *)
Theorem conflict_without_socket (a b : BrewPiProcess) :
  pid a <> pid b -> cfg a <> cfg b -> port a <> port b ->
  sock a = None \/ sock b = None ->
  conflict a b = Raise AttributeError /\ forall r, conflict a b <> Ok r.
Proof.
  intros Hpid Hcfg Hport Hsock.
  assert (conflict a b = Raise AttributeError) as E.
  { rewrite conflict_reaches_sockets by assumption.
    destruct (sock b) as [sb|] eqn:Eb.
    - destruct Hsock as [Ha|Hb]; [|discriminate].
      rewrite Ha. reflexivity.
    - reflexivity. }
  split; [exact E|]. intros r. rewrite E. discriminate.
Qed.

Lemma cfg_a_ne_cfg_b : Some cfg_a <> Some cfg_b.
Proof.
  intros H. assert (cfg_a !! "port" = cfg_b !! "port") as E by congruence.
  vm_compute in E. discriminate.
Qed.

Lemma conflict_without_socket_witness :
  conflict rec_a parsed_b = Raise AttributeError /\
  forall r, conflict rec_a parsed_b <> Ok r.
Proof.
  apply (conflict_without_socket rec_a parsed_b).
  - discriminate.
  - exact cfg_a_ne_cfg_b.
  - discriminate.
  - left. reflexivity.
Defined.

(** With both descriptors present the socket comparison returns 1 exactly
    when the four fields agree. *)
Lemma conflict_sockets_present (a b : BrewPiProcess) (sa sb : BrewPiSocket) :
  sock a = Some sa -> sock b = Some sb ->
  pid a <> pid b -> cfg a <> cfg b -> port a <> port b ->
  conflict a b = if pylist_eq
                      [sock_type sb; sock_file sb; sock_host sb; sock_port sb]
                      [sock_type sa; sock_file sa; sock_host sa; sock_port sa]
                 then Ok 1 else Ok 0.
Proof.
  intros Ha Hb Hpid Hcfg Hport.
  rewrite conflict_reaches_sockets by assumption.
  rewrite Ha, Hb. reflexivity.
Qed.

Lemma same_socket_sym (s1 s2 : BrewPiSocket) :
  same_socket s1 s2 <-> same_socket s2 s1.
Proof. unfold same_socket. intuition congruence. Qed.

Lemma conflict_same_pid (a b : BrewPiProcess) :
  pid a = pid b -> conflict a b = Ok 0.
Proof. intros E. unfold conflict. apply py_eq_true in E. by rewrite E. Qed.

Lemma conflict_shared_resource (a b : BrewPiProcess) :
  pid a <> pid b -> cfg a = cfg b \/ port a = port b -> conflict a b = Ok 1.
Proof.
  intros Hpid Hor. unfold conflict.
  apply py_eq_false in Hpid. rewrite Hpid.
  case_bool_decide as Hc; [reflexivity|].
  destruct Hor as [Hcfg|Hport]; [congruence|].
  assert (py_eq (port b) (port a) = true) as -> by (apply py_eq_true; congruence).
  reflexivity.
Qed.

(** With both descriptors present [conflict] returns 0 or 1, and 1 exactly
    in the three conflicting situations. *)
Lemma conflict_sockets_decide (a b : BrewPiProcess) (sa sb : BrewPiSocket) :
  sock a = Some sa -> sock b = Some sb ->
  exists r, conflict a b = Ok r /\ (r = 0 \/ r = 1) /\
    (pid a = pid b -> truthy r = false) /\
    (pid a <> pid b ->
       (truthy r = true <->
          cfg a = cfg b \/ port a = port b \/ same_socket sa sb)).
Proof.
  intros Ha Hb.
  destruct (decide (pid a = pid b)) as [Hpid|Hpid].
  { exists 0. rewrite (conflict_same_pid a b Hpid).
    repeat split; auto; try contradiction. }
  destruct (decide (cfg a = cfg b)) as [Hcfg|Hcfg].
  { exists 1. rewrite (conflict_shared_resource a b Hpid (or_introl Hcfg)).
    repeat split; auto; try contradiction. }
  destruct (decide (port a = port b)) as [Hport|Hport].
  { exists 1. rewrite (conflict_shared_resource a b Hpid (or_intror Hport)).
    repeat split; auto; try contradiction. }
  rewrite (conflict_sockets_present a b sa sb) by assumption.
  destruct (pylist_eq _ _) eqn:E.
  - apply pylist_eq_fields, same_socket_sym in E.
    exists 1. repeat split; auto; try contradiction.
  - exists 0. repeat split; auto; try contradiction.
    + intros Ht. discriminate Ht.
    + intros [Hx|[Hx|Hx]]; try contradiction.
      apply same_socket_sym, pylist_eq_fields in Hx. congruence.
Qed.

(** C1, as amended: [a.conflict(b)] returns 0 when the pids are equal;
    with different pids it returns 1 when the configs are equal or the
    ports are equal; and when both records carry a socket descriptor it
    always returns 0 or 1, and with different pids it returns 1 exactly when
    the configs are equal, the ports are equal, or the four socket fields
    (type, file, host, port) are pairwise equal.  It is a function of the two
    records alone: run in any state, it leaves the state as it was. *)
Theorem conflict_spec (a b : BrewPiProcess) :
  (pid a = pid b -> conflict a b = Ok 0) /\
  (pid a <> pid b -> cfg a = cfg b \/ port a = port b -> conflict a b = Ok 1) /\
  (forall sa sb, sock a = Some sa -> sock b = Some sb ->
     exists r, conflict a b = Ok r /\ (r = 0 \/ r = 1) /\
       (forall st : St, lift_res (conflict a b) st = (Ok r, st)) /\
       (pid a = pid b -> truthy r = false) /\
       (pid a <> pid b ->
          (truthy r = true <->
             cfg a = cfg b \/ port a = port b \/ same_socket sa sb))).
Proof.
  split; [apply conflict_same_pid|]. split; [apply conflict_shared_resource|].
  intros sa sb Ha Hb.
  destruct (conflict_sockets_decide a b sa sb Ha Hb) as (r & E & H01 & Heq & Hne).
  exists r. repeat split; try assumption.
  - intros st. unfold lift_res. by rewrite E.
  - apply Hne; assumption.
  - apply Hne; assumption.
Qed.

Lemma conflict_spec_witness :
  conflict parsed_a parsed_c = Ok 1 /\
  exists r, conflict parsed_a parsed_b = Ok r /\ truthy r = false.
Proof.
  split.
  - apply (conflict_spec parsed_a parsed_c).
    + discriminate.
    + left. reflexivity.
  - destruct (conflict_spec parsed_a parsed_b) as (_ & _ & H).
    destruct (H (demo_socket cfg_a) (demo_socket cfg_b) eq_refl eq_refl)
      as (r & Hr & _ & _ & _ & Hiff).
    exists r. split; [exact Hr|].
    destruct (truthy r) eqn:E; [|reflexivity].
    assert (PyInt 100 <> PyInt 200) as Hne by discriminate.
    destruct (proj1 (Hiff Hne) eq_refl) as [Hc|[Hp|Hs]].
    + exfalso. apply cfg_a_ne_cfg_b. exact Hc.
    + discriminate Hp.
    + destruct Hs as (_ & Hf & _). vm_compute in Hf. discriminate Hf.
Defined.

(** C1 as stated fails: two records with different pids, configs and ports
    and no socket descriptor make [conflict] raise instead of returning, so
    it is not true that every pair of records yields a value. *)
Lemma conflict_total_counterexample :
  conflict rec_a rec_b = Raise AttributeError /\
  ~ (forall a b : BrewPiProcess, exists r : Z, conflict a b = Ok r).
Proof.
  assert (conflict rec_a rec_b = Raise AttributeError) as E
    by (vm_compute; reflexivity).
  split; [exact E|].
  intros H. destruct (H rec_a rec_b) as [r Hr]. congruence.
Qed.

(** ** Graceful quit *)

Lemma connect_listening (s : BrewPiSocket) (w : World) :
  s ∈ listening w ->
  BrewPiSocket_connect s w = (Ok (Some s), emit (Connect s) w).
Proof.
  intros Hin. unfold BrewPiSocket_connect, bind, modify, gets. cbn.
  rewrite bool_decide_eq_true_2 by assumption. reflexivity.
Qed.

Lemma connect_refused (s : BrewPiSocket) (w : World) :
  s ∉ listening w ->
  BrewPiSocket_connect s w = (Ok None, emit (Connect s) w).
Proof.
  intros Hin. unfold BrewPiSocket_connect, bind, modify, gets. cbn.
  rewrite bool_decide_eq_false_2 by assumption. reflexivity.
Qed.

(** Without a socket descriptor [quit] does nothing at all. *)
Lemma quit_no_socket (p : BrewPiProcess) (w : World) :
  sock p = None -> quit p w = (Ok tt, w).
Proof. intros H. unfold quit. rewrite H. reflexivity. Qed.

(** A refused connection is reported on standard output; nothing is sent.
    With an integer pid both lines are printed and [quit] returns. *)
Lemma quit_refused (p : BrewPiProcess) (s : BrewPiSocket) (w : World) :
  sock p = Some s -> s ∉ listening w ->
  exists r w' lines,
    quit p w = (r, w') /\
    trace w' = (trace w ++ Connect s :: map Stdout lines)%list /\
    (forall z, pid p = PyInt z -> r = Ok tt /\ length lines = 2%nat).
Proof.
  intros Hs Hl. unfold quit. rewrite Hs. unfold bind at 1.
  rewrite connect_refused by assumption.
  destruct (pid p) as [|z|x] eqn:Ep.
  - eexists _, _, [_]. split; [reflexivity|]. cbn.
    rewrite <- app_assoc. split; [reflexivity|]. intros z Hz. discriminate Hz.
  - eexists _, _, [_; _]. split; [reflexivity|]. cbn.
    rewrite <- !app_assoc. split; [reflexivity|]. intros _ _. split; reflexivity.
  - eexists _, _, [_]. split; [reflexivity|]. cbn.
    rewrite <- app_assoc. split; [reflexivity|]. intros z Hz. discriminate Hz.
Qed.

(** C10: on a record without socket descriptor [quit] is a silent no-op: it
    returns normally and leaves the world (and with it the trace of
    connections, messages and console output) exactly as it was.  With a
    descriptor [s] it attempts one connection to [s]; when [s] accepts, it
    sends the single message [quit], closes the connection, prints the
    confirmation and returns; when [s] refuses, nothing is sent. *)
Theorem quit_spec (p : BrewPiProcess) (w : World) :
  (sock p = None -> quit p w = (Ok tt, w)) /\
  (forall s, sock p = Some s ->
     (s ∈ listening w ->
        exists w', quit p w = (Ok tt, w') /\
          process_table w' = process_table w /\
          trace w' = (trace w ++
            [Connect s; Send s "quit"; Close s;
             Stdout ("Quit message sent to BrewPi instance with pid "
                     ++ fmt_s (pid p) ++ "!")%string])%list) /\
     (s ∉ listening w ->
        exists r w' lines, quit p w = (r, w') /\
          trace w' = (trace w ++ Connect s :: map Stdout lines)%list)).
Proof.
  split; [apply quit_no_socket|].
  intros s Hs. split.
  - intros Hl. unfold quit. rewrite Hs. unfold bind at 1.
    rewrite connect_listening by assumption.
    eexists. split; [reflexivity|]. cbn.
    split; [reflexivity|]. rewrite <- !app_assoc. reflexivity.
  - intros Hl. destruct (quit_refused p s w Hs Hl) as (r & w' & lines & E & T & _).
    exists r, w', lines. split; assumption.
Qed.

Lemma quit_spec_witness :
  quit rec_b world_listening = (Ok tt, world_listening) /\
  exists w', quit parsed_b world_listening = (Ok tt, w') /\
    process_table w' = process_table world_listening /\
    trace w' = (trace world_listening ++
      [Connect (demo_socket cfg_b); Send (demo_socket cfg_b) "quit";
       Close (demo_socket cfg_b);
       Stdout "Quit message sent to BrewPi instance with pid 200!"])%list.
Proof.
  split.
  - apply (quit_spec rec_b world_listening). reflexivity.
  - destruct (quit_spec parsed_b world_listening) as [_ H].
    destruct (H (demo_socket cfg_b) eq_refl) as [Hok _].
    apply Hok. unfold world_listening; cbn. apply list_elem_of_here.
Defined.

(** ** Scanning the stored list for conflicts *)

(** [findConflicts] only reads the registry: whatever it returns or raises,
    the state (stored list and world) is the one it started in. *)
Lemma findConflicts_frame (c : BrewPiProcess) (st : St) :
  snd (findConflicts c st) = st.
Proof. reflexivity. Qed.

Lemma findConflicts_run (c : BrewPiProcess) (st : St) :
  findConflicts c st = (findConflicts_loop c (self_list (self st)), st).
Proof. reflexivity. Qed.

Lemma has_socket_Some (p : BrewPiProcess) :
  has_socket p -> exists s, sock p = Some s.
Proof.
  unfold has_socket. destruct (sock p) as [s|]; [eauto|congruence].
Qed.

(** The loop returns 0 or 1 when all descriptors are present, and 1
    exactly when some stored record with another pid conflicts. *)
Lemma findConflicts_loop_spec (c : BrewPiProcess) (l : list BrewPiProcess) :
  has_socket c -> Forall has_socket l ->
  exists r, findConflicts_loop c l = Ok r /\ (r = 0 \/ r = 1) /\
    (truthy r = true <->
       exists p, In p l /\ pid p <> pid c /\
                 exists v, conflict c p = Ok v /\ truthy v = true).
Proof.
  intros Hc Hl. induction Hl as [|p rest Hp Hrest IH].
  - exists 0. cbn. repeat split; auto.
    + intros Ht. discriminate Ht.
    + intros (p & [] & _).
  - destruct IH as (r & Er & H01 & Hiff).
    cbn [findConflicts_loop].
    destruct (py_eq (pid c) (pid p)) eqn:Epid.
    + apply py_eq_true in Epid.
      exists r. split; [exact Er|]. split; [exact H01|].
      rewrite Hiff. split.
      * intros (q & Hin & Hq). exists q. split; [right; exact Hin|exact Hq].
      * intros (q & [->|Hin] & Hne & Hq); [congruence|].
        exists q. auto.
    + apply py_eq_false in Epid.
      destruct (has_socket_Some c Hc) as [sc Hsc].
      destruct (has_socket_Some p Hp) as [sp Hsp].
      destruct (conflict_sockets_decide c p sc sp Hsc Hsp)
        as (v & Ev & Hv01 & _ & _).
      rewrite Ev. destruct (truthy v) eqn:Etv.
      * exists 1. repeat split; auto.
        intros _. exists p. split; [left; reflexivity|].
        split; [congruence|]. exists v. auto.
      * exists r. split; [exact Er|]. split; [exact H01|].
        rewrite Hiff. split.
        -- intros (q & Hin & Hq). exists q. split; [right; exact Hin|exact Hq].
        -- intros (q & [->|Hin] & Hne & w & Ew & Htw).
           ++ rewrite Ev in Ew. injection Ew as <-. congruence.
           ++ exists q. eauto.
Qed.

(** C4, as amended: [findConflicts(candidate)] never refreshes: the state,
    and with it the stored list, is afterwards what it was before.  When
    the candidate and every stored record carry a socket descriptor it
    returns 0 or 1, and 1 exactly when [candidate.conflict(p)] is true for
    some stored record [p] whose pid differs from the candidate's. *)
Theorem findConflicts_spec (c : BrewPiProcess) (st : St) :
  snd (findConflicts c st) = st /\
  (has_socket c -> Forall has_socket (self_list (self st)) ->
   exists r, findConflicts c st = (Ok r, st) /\ (r = 0 \/ r = 1) /\
     (truthy r = true <->
        exists p, In p (self_list (self st)) /\ pid p <> pid c /\
                  exists v, conflict c p = Ok v /\ truthy v = true)).
Proof.
  split; [apply findConflicts_frame|].
  intros Hc Hl.
  destruct (findConflicts_loop_spec c (self_list (self st)) Hc Hl)
    as (r & Er & H01 & Hiff).
  exists r. rewrite findConflicts_run, Er. auto.
Qed.

Lemma findConflicts_spec_witness :
  exists r, findConflicts parsed_a st_refreshed = (Ok r, st_refreshed) /\
    (r = 0 \/ r = 1) /\
    (truthy r = true <->
       exists p, In p (self_list (self st_refreshed)) /\
                 pid p <> pid parsed_a /\
                 exists v, conflict parsed_a p = Ok v /\ truthy v = true).
Proof.
  apply (findConflicts_spec parsed_a st_refreshed).
  - unfold has_socket. discriminate.
  - unfold has_socket. repeat constructor; discriminate.
Defined.

(** C4 as stated fails: a candidate built by hand, without socket
    descriptor, meets a stored record that differs from it in pid, config
    and port; the scan raises there, although a later stored record, with
    another pid and the candidate's config, conflicts with the candidate. *)
Lemma findConflicts_counterexample :
  fst (findConflicts rec_a st_refreshed) = Raise AttributeError /\
  (exists p, In p (self_list (self st_refreshed)) /\ pid p <> pid rec_a /\
             conflict rec_a p = Ok 1) /\
  ~ (forall (c : BrewPiProcess) (st : St),
       (exists r, fst (findConflicts c st) = Ok r /\ truthy r = true) <->
       (exists p, In p (self_list (self st)) /\ pid p <> pid c /\
                  exists v, conflict c p = Ok v /\ truthy v = true)).
Proof.
  assert (fst (findConflicts rec_a st_refreshed) = Raise AttributeError) as E
    by (vm_compute; reflexivity).
  assert (exists p, In p (self_list (self st_refreshed)) /\
                    pid p <> pid rec_a /\ conflict rec_a p = Ok 1) as Hex.
  { exists parsed_c. split; [cbn; auto|]. split; [discriminate|].
    vm_compute. reflexivity. }
  split; [exact E|]. split; [exact Hex|].
  intros H. destruct Hex as (p & Hin & Hne & Hc).
  destruct (proj2 (H rec_a st_refreshed)) as (r & Er & _).
  - exists p. split; [exact Hin|]. split; [exact Hne|]. exists 1. auto.
  - rewrite E in Er. discriminate Er.
Qed.

(** ** Building records from the process table *)

Lemma find_pid_Some (z : Z) (t : list OsProcess) (q : OsProcess) :
  find_pid z t = Some q -> _pid q = z /\ In q t.
Proof.
  unfold find_pid. intros H. apply find_some in H as [Hin Heq].
  apply Z.eqb_eq in Heq. auto.
Qed.

Lemma find_pid_remove_ne (z z' : Z) (t : list OsProcess) :
  z <> z' -> find_pid z (remove_pid z' t) = find_pid z t.
Proof.
  intros Hne. unfold find_pid, remove_pid.
  induction t as [|q t IH]; [reflexivity|]. cbn.
  destruct (Z.eqb_spec (_pid q) z') as [E1|E1]; cbn.
  - destruct (Z.eqb_spec (_pid q) z) as [E2|E2]; [congruence|exact IH].
  - destruct (Z.eqb_spec (_pid q) z); [reflexivity|exact IH].
Qed.

Lemma getpid_env_step (w : World) : getpid (env_step w) = getpid w.
Proof.
  unfold env_step. destruct (env w) as [|[|p] rest]; try reflexivity.
  destruct (Z.eqb p (getpid w)); reflexivity.
Qed.

Lemma trace_env_step (w : World) : trace (env_step w) = trace w.
Proof.
  unfold env_step. destruct (env w) as [|[|p] rest]; try reflexivity.
  destruct (Z.eqb p (getpid w)); reflexivity.
Qed.

(** The calling process is still in the table after a step of the
    environment. *)
Lemma find_self_env_step (w : World) :
  find_pid (getpid w) (process_table (env_step w))
  = find_pid (getpid w) (process_table w).
Proof.
  unfold env_step. destruct (env w) as [|[|p] rest]; try reflexivity.
  destruct (Z.eqb_spec p (getpid w)) as [E|E]; [reflexivity|].
  cbn. apply find_pid_remove_ne. congruence.
Qed.

Lemma cfg_argument_empty (process : OsProcess) :
  (forall s, In s (cmdline process) -> contains ".cfg" s = false) ->
  cfg_argument process = CfgEmptyList.
Proof.
  intros H. unfold cfg_argument.
  destruct (List.filter (contains ".cfg") (cmdline process)) as [|c rest] eqn:E;
    [reflexivity|].
  assert (In c (List.filter (contains ".cfg") (cmdline process))) as Hin
    by (rewrite E; left; reflexivity).
  apply filter_In in Hin as [Hin Hc]. rewrite (H c Hin) in Hc. discriminate Hc.
Qed.

Lemma Forall2_In_right {A B} (R : A -> B -> Prop) (l1 : list A) (l2 : list B) :
  Forall2 R l1 l2 -> forall y, In y l2 -> exists x, In x l1 /\ R x y.
Proof.
  induction 1 as [|x y l1 l2 Hxy _ IH]; intros z Hin.
  - destruct Hin.
  - destruct Hin as [<-|Hin].
    + exists x. split; [left; reflexivity|exact Hxy].
    + destruct (IH z Hin) as (x' & Hx' & Hr). exists x'. split; [right|]; auto.
Qed.

Section RegistryProperties.

Variable readCfg : World -> CfgArg -> Config.
Variable newSocket : Config -> BrewPiSocket.

(** When the loaded configuration has a [port] entry, [parseProcess]
    returns the record of the process and leaves the world alone. *)
Lemma parseProcess_run (process : OsProcess) (w : World) (v : pyval) :
  readCfg w (cfg_argument process) !! "port" = Some v ->
  parseProcess readCfg newSocket process w =
    (Ok {| pid := PyInt (_pid process);
           cfg := Some (readCfg w (cfg_argument process));
           port := v;
           sock := Some (newSocket (readCfg w (cfg_argument process))) |},
     w).
Proof.
  intros H. unfold parseProcess, bind, gets, getitem. cbn.
  rewrite H. reflexivity.
Qed.

Lemma parseProcess_frame (process : OsProcess) (w : World) :
  snd (parseProcess readCfg newSocket process w) = w.
Proof.
  unfold parseProcess, bind, gets, getitem. cbn.
  destruct (readCfg w (cfg_argument process) !! "port"); reflexivity.
Qed.

(** C6: a process whose command line has no argument naming a config
    file ([".cfg"] occurs in none of them) is parsed without error as soon
    as the default configuration, the one the loader returns when it is
    given no path, has a port: the record holds that configuration, and
    its port is the default configuration's port. *)
Theorem parseProcess_default_config (process : OsProcess) (w : World)
    (v : pyval) :
  (forall s, In s (cmdline process) -> contains ".cfg" s = false) ->
  readCfg w CfgEmptyList !! "port" = Some v ->
  parseProcess readCfg newSocket process w =
    (Ok {| pid := PyInt (_pid process);
           cfg := Some (readCfg w CfgEmptyList);
           port := v;
           sock := Some (newSocket (readCfg w CfgEmptyList)) |},
     w).
Proof.
  intros Hno Hport.
  pose proof (cfg_argument_empty process Hno) as E.
  rewrite (parseProcess_run process w v); rewrite E; auto.
Qed.

(** The loop of [update] appends one parsed record per process, in
    order. *)
Lemma update_loop_spec (w : World) (matching : list OsProcess) :
  (forall a, is_Some (readCfg w a !! "port")) ->
  forall acc, exists l,
    update_loop readCfg newSocket matching acc w = (Ok (acc ++ l), w) /\
    Forall2 (fun p bp =>
               parseProcess readCfg newSocket p w = (Ok bp, w) /\
               pid bp = PyInt (_pid p))
            matching l.
Proof.
  intros Hport. induction matching as [|p rest IH]; intros acc.
  - exists []. cbn. rewrite app_nil_r. split; [reflexivity|constructor].
  - destruct (Hport (cfg_argument p)) as [v Hv].
    pose proof (parseProcess_run p w v Hv) as Ep.
    set (bp := mkProcess (PyInt (_pid p)) _ v _) in Ep.
    destruct (IH (acc ++ [bp])) as (l & El & Hl).
    exists (bp :: l). split.
    + cbn [update_loop]. unfold bind at 1. rewrite Ep.
      rewrite El. rewrite <- app_assoc. reflexivity.
    + constructor; [|exact Hl]. split; [exact Ep|reflexivity].
Qed.

(** [update] runs the loop on the filtered table and stores the result;
    the world is left as it was. *)
Lemma update_run (st : St) :
  (forall a, is_Some (readCfg (world st) a !! "port")) ->
  exists l,
    update readCfg newSocket st
      = (Ok l, {| world := world st; self := {| self_list := l |} |}) /\
    Forall2 (fun p bp =>
               parseProcess readCfg newSocket p (world st)
                 = (Ok bp, world st) /\
               pid bp = PyInt (_pid p))
            (List.filter is_brewpi (process_table (world st))) l.
Proof.
  intros Hport.
  destruct (update_loop_spec (world st)
              (List.filter is_brewpi (process_table (world st))) Hport [])
    as (l & El & Hl).
  exists l. split; [|exact Hl].
  unfold update, bind, in_world, process_iter, gets, set_list, modify.
  cbn. rewrite El. reflexivity.
Qed.

(** C5: when the loader returns a configuration with a port for every
    request, [update] returns a list that holds one record per process of
    the table that passes the filter [is_brewpi], in the order of the
    table, each the result of [parseProcess] on it; so every record in the
    list stems from a matching process.  The stored list is replaced by
    this list, whatever it was before, the world is unchanged, and [get]
    returns the same list afterwards. *)
Theorem update_spec (st : St) :
  (forall a, is_Some (readCfg (world st) a !! "port")) ->
  exists l,
    let st' := {| world := world st; self := {| self_list := l |} |} in
    update readCfg newSocket st = (Ok l, st') /\
    get st' = (Ok l, st') /\
    Forall2 (fun p bp =>
               parseProcess readCfg newSocket p (world st)
                 = (Ok bp, world st) /\
               pid bp = PyInt (_pid p))
            (List.filter is_brewpi (process_table (world st))) l /\
    (forall bp, In bp l ->
       exists p, In p (process_table (world st)) /\ is_brewpi p = true /\
                 parseProcess readCfg newSocket p (world st)
                   = (Ok bp, world st)).
Proof.
  intros Hport. destruct (update_run st Hport) as (l & El & Hl).
  exists l. cbn zeta. split; [exact El|split; [reflexivity|split; [exact Hl|]]].
  intros bp Hin.
  destruct (Forall2_In_right _ _ _ Hl bp Hin) as (p & Hp & Hr & _).
  apply filter_In in Hp as [Hp Hb]. eauto.
Qed.

(** [psutil.Process] of the caller's own pid finds the caller. *)
Lemma psutil_Process_self (w : World) (p : OsProcess) :
  find_pid (getpid w) (process_table w) = Some p ->
  psutil_Process (PyInt (getpid w)) w = (Ok p, env_step w).
Proof.
  intros Hfind. unfold psutil_Process, bind, modify, gets. cbn.
  rewrite find_self_env_step, Hfind. reflexivity.
Qed.

(** C7: when the calling process is in the process table and its
    configuration has a port, [me] returns the record that [parseProcess]
    builds, at the time of the call, for the caller's own process; its pid
    is the caller's pid.  The stored list is not read: with any other
    registry in place the result is the same; and it is not written: the
    registry after the call is the one before it. *)
Theorem me_spec (st : St) (p : OsProcess) (v : pyval) :
  find_pid (getpid (world st)) (process_table (world st)) = Some p ->
  readCfg (env_step (world st)) (cfg_argument p) !! "port" = Some v ->
  exists bp,
    me readCfg newSocket st
      = (Ok bp, {| world := env_step (world st); self := self st |}) /\
    pid bp = PyInt (getpid (world st)) /\
    parseProcess readCfg newSocket p (env_step (world st))
      = (Ok bp, env_step (world st)) /\
    (forall reg : BrewPiProcesses,
       me readCfg newSocket {| world := world st; self := reg |}
         = (Ok bp, {| world := env_step (world st); self := reg |})).
Proof.
  intros Hfind Hport.
  pose proof (parseProcess_run p (env_step (world st)) v Hport) as Ep.
  pose proof (psutil_Process_self (world st) p Hfind) as Eself.
  destruct (find_pid_Some _ _ _ Hfind) as [Hpid _].
  eexists. split; [|split; [|split; [exact Ep|]]].
  - unfold me, bind, in_world, gets. cbn -[psutil_Process parseProcess].
    rewrite Eself. cbn -[psutil_Process parseProcess].
    rewrite Ep. reflexivity.
  - cbn. congruence.
  - intros reg. unfold me, bind, in_world, gets.
    cbn -[psutil_Process parseProcess].
    rewrite Eself. cbn -[psutil_Process parseProcess].
    rewrite Ep. reflexivity.
Qed.

End RegistryProperties.

Lemma demo_readCfg_has_port (w : World) (a : CfgArg) :
  is_Some (demo_readCfg w a !! "port").
Proof.
  destruct a as [|p]; cbn.
  - exists (PyStr "/dev/ttyUSB0"). vm_compute. reflexivity.
  - destruct (String.eqb p "/b.cfg").
    + exists (PyStr "/dev/ttyUSB1"). vm_compute. reflexivity.
    + exists (PyStr "/dev/ttyUSB0"). vm_compute. reflexivity.
Qed.

Lemma parseProcess_default_config_witness :
  parseProcess demo_readCfg demo_socket proc_100 world_quiet
  = (Ok parsed_a, world_quiet).
Proof.
  apply (parseProcess_default_config demo_readCfg demo_socket
           proc_100 world_quiet (PyStr "/dev/ttyUSB0")).
  - cbn. intros s [<-|[<-|[]]]; reflexivity.
  - vm_compute. reflexivity.
Defined.

Lemma update_spec_witness :
  exists l,
    let st' := {| world := world_quiet; self := {| self_list := l |} |} in
    update demo_readCfg demo_socket st_quiet = (Ok l, st') /\
    get st' = (Ok l, st') /\
    Forall2 (fun p bp =>
               parseProcess demo_readCfg demo_socket p world_quiet
                 = (Ok bp, world_quiet) /\
               pid bp = PyInt (_pid p))
            (List.filter is_brewpi (process_table world_quiet)) l /\
    (forall bp, In bp l ->
       exists p, In p (process_table world_quiet) /\ is_brewpi p = true /\
                 parseProcess demo_readCfg demo_socket p world_quiet
                   = (Ok bp, world_quiet)).
Proof.
  apply (update_spec demo_readCfg demo_socket st_quiet).
  intros a. apply demo_readCfg_has_port.
Defined.

Lemma me_spec_witness :
  exists bp,
    me demo_readCfg demo_socket st_quiet
      = (Ok bp, {| world := env_step world_quiet; self := self st_quiet |}) /\
    pid bp = PyInt 100 /\
    parseProcess demo_readCfg demo_socket proc_100 (env_step world_quiet)
      = (Ok bp, env_step world_quiet) /\
    (forall reg : BrewPiProcesses,
       me demo_readCfg demo_socket {| world := world_quiet; self := reg |}
         = (Ok bp, {| world := env_step world_quiet; self := reg |})).
Proof.
  apply (me_spec demo_readCfg demo_socket st_quiet proc_100
           (PyStr "/dev/ttyUSB0")).
  - reflexivity.
  - vm_compute. reflexivity.
Defined.

(** The refresh of the quiet world yields the three BrewPi instances and
    leaves out [init]. *)
Example update_quiet :
  update demo_readCfg demo_socket st_quiet
  = (Ok [parsed_a; parsed_b; parsed_c], st_refreshed).
Proof. vm_compute. reflexivity. Qed.

(** ** Forced termination *)

Lemma bind_run {S A B} (m : M S A) (k : A -> M S B) (s s' : S) (a : A) :
  m s = (Ok a, s') -> bind m k s = k a s'.
Proof. intros E. unfold bind. rewrite E. reflexivity. Qed.

Lemma bind_raise {S A B} (m : M S A) (k : A -> M S B) (s s' : S) (e : Exn) :
  m s = (Raise e, s') -> bind m k s = (Raise e, s').
Proof. intros E. unfold bind. rewrite E. reflexivity. Qed.

(** [for] with [continue] on a test is a [for] over the elements that fail
    the test. *)
Lemma for_each_skip {S A} (skip : A -> bool) (body : A -> M S unit)
    (l : list A) (s : S) :
  for_each l (fun x => if skip x then ret tt else body x) s
  = for_each (List.filter (fun x => negb (skip x)) l) body s.
Proof.
  revert s. induction l as [|x l IH]; intros s; [reflexivity|].
  cbn [for_each List.filter]. destruct (skip x); cbn [negb].
  - unfold bind at 1. cbn. apply IH.
  - cbn [for_each]. unfold bind. destruct (body x s) as [[[]|e] s']; auto.
Qed.

(** The process is gone when [psutil.Process] looks for it: the exception
    leaves [kill]; it is raised outside the [try]. *)
Lemma kill_vanished (p : BrewPiProcess) (z : Z) (w : World) :
  pid p = PyInt z ->
  find_pid z (process_table (env_step w)) = None ->
  kill p w = (Raise (NoSuchProcess z), env_step w).
Proof.
  intros Hp Hfind. unfold kill. rewrite Hp.
  apply bind_raise. unfold psutil_Process, bind, modify, gets. cbn.
  rewrite Hfind. reflexivity.
Qed.

(** The process goes between [psutil.Process] and [process.kill()]: the
    [except] clause names [AccessDenied] only, the exception leaves [kill]. *)
Lemma kill_vanished_late (p : BrewPiProcess) (z : Z) (w : World)
    (q : OsProcess) :
  pid p = PyInt z ->
  find_pid z (process_table (env_step w)) = Some q ->
  find_pid z (process_table (env_step (env_step w))) = None ->
  kill p w = (Raise (NoSuchProcess z), env_step (env_step w)).
Proof.
  intros Hp Hq Hfind. destruct (find_pid_Some _ _ _ Hq) as [Hz _].
  unfold kill. rewrite Hp.
  rewrite (bind_run _ _ w (env_step w) q).
  2:{ unfold psutil_Process, bind, modify, gets. cbn. rewrite Hq. reflexivity. }
  unfold try_except, process_kill, bind, modify, gets. cbn.
  rewrite Hz, Hfind. reflexivity.
Qed.

(** A permission denial is caught: two lines go to standard error and
    [kill] returns; the process is still there. *)
Lemma kill_access_denied (p : BrewPiProcess) (z : Z) (w : World)
    (q q' : OsProcess) :
  pid p = PyInt z ->
  find_pid z (process_table (env_step w)) = Some q ->
  find_pid z (process_table (env_step (env_step w))) = Some q' ->
  killable q' = false ->
  kill p w =
    (Ok tt,
     emit (Stderr "Is the process running under the same user?")
       (emit (Stderr ("Cannot kill process " ++ pretty z
                      ++ ", you need root permission to do that."))
          (env_step (env_step w)))).
Proof.
  intros Hp Hq Hq' Hk. destruct (find_pid_Some _ _ _ Hq) as [Hz _].
  unfold kill. rewrite Hp.
  rewrite (bind_run _ _ w (env_step w) q).
  2:{ unfold psutil_Process, bind, modify, gets. cbn. rewrite Hq. reflexivity. }
  unfold try_except, process_kill, bind, modify, gets. cbn.
  rewrite Hz, Hq', Hk. reflexivity.
Qed.

(** The signal is delivered: the process leaves the table, the trace
    records the signal and the confirmation. *)
Lemma kill_delivered (p : BrewPiProcess) (z : Z) (w : World)
    (q q' : OsProcess) :
  pid p = PyInt z ->
  find_pid z (process_table (env_step w)) = Some q ->
  find_pid z (process_table (env_step (env_step w))) = Some q' ->
  killable q' = true ->
  kill p w =
    (Ok tt,
     emit (Stdout ("SIGKILL sent to BrewPi instance with pid "
                   ++ pretty z ++ "!"))
       (set_table (remove_pid z (process_table (env_step (env_step w))))
          (emit (Sigkill z) (env_step (env_step w))))).
Proof.
  intros Hp Hq Hq' Hk. destruct (find_pid_Some _ _ _ Hq) as [Hz _].
  destruct (find_pid_Some _ _ _ Hq') as [Hz' _].
  unfold kill. rewrite Hp.
  rewrite (bind_run _ _ w (env_step w) q).
  2:{ unfold psutil_Process, bind, modify, gets. cbn. rewrite Hq. reflexivity. }
  unfold try_except, process_kill, bind, modify, gets. cbn.
  rewrite Hz, Hq', Hk. cbn. rewrite Hz'. reflexivity.
Qed.

(** Whatever [kill] does, it does not change the caller's pid, it only
    appends to the trace, and a signal it sends goes to the pid of the
    record. *)
Lemma kill_effects (p : BrewPiProcess) (w : World) :
  getpid (snd (kill p w)) = getpid w /\
  exists evs, trace (snd (kill p w)) = trace w ++ evs /\
              forall y, In (Sigkill y) evs -> pid p = PyInt y.
Proof.
  destruct (pid p) as [|z|x] eqn:Hp.
  - unfold kill. rewrite Hp. cbn. split; [reflexivity|].
    exists []. rewrite app_nil_r. split; [reflexivity|]. intros y [].
  - destruct (find_pid z (process_table (env_step w))) as [q|] eqn:Hq.
    + destruct (find_pid z (process_table (env_step (env_step w))))
        as [q'|] eqn:Hq'.
      * destruct (killable q') eqn:Hk.
        -- rewrite (kill_delivered p z w q q' Hp Hq Hq' Hk). cbn.
           rewrite !getpid_env_step, !trace_env_step, <- app_assoc.
           split; [reflexivity|]. eexists. split; [reflexivity|].
           intros y [Hy|[Hy|[]]]; [|discriminate Hy].
           injection Hy as ->. reflexivity.
        -- rewrite (kill_access_denied p z w q q' Hp Hq Hq' Hk). cbn.
           rewrite !getpid_env_step, !trace_env_step, <- app_assoc.
           split; [reflexivity|]. eexists. split; [reflexivity|].
           intros y [Hy|[Hy|[]]]; discriminate Hy.
      * rewrite (kill_vanished_late p z w q Hp Hq Hq'). cbn.
        rewrite !getpid_env_step, !trace_env_step.
        split; [reflexivity|]. exists []. rewrite app_nil_r.
        split; [reflexivity|]. intros y [].
    + rewrite (kill_vanished p z w Hp Hq). cbn.
      rewrite getpid_env_step, trace_env_step.
      split; [reflexivity|]. exists []. rewrite app_nil_r.
      split; [reflexivity|]. intros y [].
  - unfold kill. rewrite Hp. cbn. split; [reflexivity|].
    exists []. rewrite app_nil_r. split; [reflexivity|]. intros y [].
Qed.

Lemma in_world_run {A} (m : M World A) (st : St) :
  in_world m st
  = (fst (m (world st)), {| world := snd (m (world st)); self := self st |}).
Proof. unfold in_world. destruct (m (world st)). reflexivity. Qed.

(** A loop of [kill] over records none of which is the caller never
    signals the caller. *)
Lemma for_each_kill_effects (myPid : Z) (l : list BrewPiProcess) :
  Forall (fun p => pid p <> PyInt myPid) l ->
  forall st,
    let st' := snd (for_each l (fun p => in_world (kill p)) st) in
    getpid (world st') = getpid (world st) /\
    self st' = self st /\
    exists evs, trace (world st') = trace (world st) ++ evs /\
                ~ In (Sigkill myPid) evs.
Proof.
  induction 1 as [|p l Hp _ IH]; intros st; cbn zeta.
  - cbn. repeat split. exists []. rewrite app_nil_r. split; [reflexivity|].
    intros [].
  - cbn [for_each]. unfold bind. rewrite in_world_run.
    destruct (kill_effects p (world st)) as (Hg & evs & Ht & Hs).
    assert (~ In (Sigkill myPid) evs) as Hno
      by (intros Hin; apply Hp, Hs, Hin).
    destruct (fst (kill p (world st))) as [[]|e].
    + specialize (IH {| world := snd (kill p (world st)); self := self st |}).
      cbn zeta in IH. destruct IH as (Hg' & Hself & evs' & Ht' & Hno').
      cbn [world self] in *.
      split; [congruence|]. split; [exact Hself|].
      exists (evs ++ evs'). rewrite Ht', Ht, app_assoc.
      split; [reflexivity|]. rewrite in_app_iff. tauto.
    + cbn. split; [exact Hg|]. split; [reflexivity|]. eauto.
Qed.

(** ** Graceful quit of all instances *)

(** On a record with an integer pid [quit] always returns: a refused
    connection is reported, not raised. *)
Lemma quit_returns (p : BrewPiProcess) (z : Z) (w : World) :
  pid p = PyInt z -> fst (quit p w) = Ok tt.
Proof.
  intros Hp. destruct (sock p) as [s|] eqn:Hs.
  - unfold quit. rewrite Hs, Hp. unfold bind at 1.
    destruct (decide (s ∈ listening w)) as [Hl|Hl].
    + rewrite connect_listening by assumption. reflexivity.
    + rewrite connect_refused by assumption. reflexivity.
  - rewrite quit_no_socket by assumption. reflexivity.
Qed.

Lemma for_each_quit_returns (skip : BrewPiProcess -> bool)
    (l : list BrewPiProcess) :
  Forall (fun p => exists z, pid p = PyInt z) l ->
  forall st,
    fst (for_each l (fun p => if skip p then ret tt else in_world (quit p)) st)
    = Ok tt.
Proof.
  induction 1 as [|p l [z Hp] _ IH]; intros st; [reflexivity|].
  cbn [for_each]. unfold bind. destruct (skip p).
  - cbn. apply IH.
  - rewrite in_world_run. rewrite (quit_returns p z _ Hp). apply IH.
Qed.

(** ** The bulk operations *)

Section BulkProperties.

Variable readCfg : World -> CfgArg -> Config.
Variable newSocket : Config -> BrewPiSocket.

Lemma update_loop_frame (matching : list OsProcess) :
  forall acc w, snd (update_loop readCfg newSocket matching acc w) = w.
Proof.
  induction matching as [|p rest IH]; intros acc w; [reflexivity|].
  cbn [update_loop]. unfold bind.
  pose proof (parseProcess_frame readCfg newSocket p w) as Hf.
  destruct (parseProcess readCfg newSocket p w) as [[bp|e] w'];
    cbn in Hf; subst w'; [apply IH|reflexivity].
Qed.

(** [update] reads the process table and writes the stored list; the
    world is the same afterwards, also when a process fails to parse. *)
Lemma update_frame (st : St) :
  world (snd (update readCfg newSocket st)) = world st.
Proof.
  unfold update, bind. rewrite !in_world_run. cbn [fst snd process_iter gets].
  rewrite in_world_run, update_loop_frame. cbn [world self].
  destruct (fst (update_loop _ _ _ _ _)); reflexivity.
Qed.


(** [killAll] is: refresh, then [kill] on each stored record whose pid is
    not the caller's, in the order of the list. *)
Lemma killAll_targets (st : St) :
  killAll readCfg newSocket st =
    (myPid <- in_world (gets getpid) ;;
     update readCfg newSocket ;;;
     l <- gets (fun st => self_list (self st)) ;;
     for_each
       (List.filter (fun p => negb (py_eq (pid p) (PyInt myPid))) l)
       (fun p => in_world (kill p))) st.
Proof.
  unfold killAll, bind. destruct (in_world (gets getpid) st) as [[z|e] st1];
    [|reflexivity].
  destruct (update readCfg newSocket st1) as [[l|e] st2]; [|reflexivity].
  cbn [gets]. apply for_each_skip.
Qed.

(** [killAll] never sends SIGKILL to the caller's own pid. *)
Lemma killAll_never_signals_self (st : St) :
  let st' := snd (killAll readCfg newSocket st) in
  getpid (world st') = getpid (world st) /\
  exists evs, trace (world st') = trace (world st) ++ evs /\
              ~ In (Sigkill (getpid (world st))) evs.
Proof.
  cbn zeta. remember (killAll readCfg newSocket st) as res eqn:E.
  rewrite killAll_targets in E. unfold bind at 1 in E.
  rewrite in_world_run in E. cbn [fst snd gets] in E.
  set (st0 := {| world := world st; self := self st |}) in E.
  unfold bind at 1 in E.
  pose proof (update_frame st0) as Hu.
  destruct (update readCfg newSocket st0) as [[l|e] st1]; cbn [snd] in Hu.
  - unfold bind at 1 in E. cbn [gets] in E. subst res.
    match goal with
    | |- context [for_each ?fl _ st1] =>
        destruct (for_each_kill_effects (getpid (world st)) fl) with (st := st1)
          as (Hg & _ & evs & Ht & Hno)
    end.
    + apply List.Forall_forall. intros p Hin. apply filter_In in Hin as [_ Hp].
      apply negb_true_iff, py_eq_false in Hp. exact Hp.
    + rewrite Hg, Ht, Hu. cbn. eauto.
  - subst res. cbn [snd]. rewrite Hu. cbn. split; [reflexivity|].
    exists []. rewrite app_nil_r. split; [reflexivity|]. intros [].
Qed.

(** [quitAll] returns normally whenever the refresh does: refused
    connections are reported and the loop goes on. *)
Lemma quitAll_returns (st : St) :
  (forall a, is_Some (readCfg (world st) a !! "port")) ->
  fst (quitAll readCfg newSocket st) = Ok tt.
Proof.
  intros Hport. unfold quitAll. unfold bind at 1.
  rewrite in_world_run. cbn [fst snd gets].
  set (st0 := {| world := world st; self := self st |}).
  destruct (update_run readCfg newSocket st0 Hport) as (l & El & Hl).
  unfold bind at 1. rewrite El. unfold bind at 1. cbn [gets self self_list].
  apply for_each_quit_returns.
  apply List.Forall_forall. intros bp Hin.
  destruct (Forall2_In_right _ _ _ Hl bp Hin) as (p & _ & _ & Hpid).
  eauto.
Qed.

End BulkProperties.

(** C2 fails on the code: in [world_race] pid 200 exits after the refresh
    has enumerated it.  [killAll] then ends with [NoSuchProcess], raised by
    [kill] and caught nowhere; nothing has been reported on the console;
    and the batch has not gone on: pid 300, the next record, is still in
    the process table and no signal was sent to it. *)
Theorem killAll_exited_pid_is_fatal :
  fst (killAll demo_readCfg demo_socket st_race) = Raise (NoSuchProcess 200) /\
  trace (world (snd (killAll demo_readCfg demo_socket st_race))) = [] /\
  find_pid 300
    (process_table (world (snd (killAll demo_readCfg demo_socket st_race))))
  = Some proc_300.
Proof. vm_compute. repeat split. Qed.

(** C3 fails on the code for [killAll], in the same run: after the refresh
    the stored list holds the records of pids 100, 200 and 300, the caller
    is pid 100, so [kill] is due on 200 and 300; it is invoked on 200, which
    raises, and never on 300: no signal to 300 is in the trace. *)
Theorem killAll_misses_later_record :
  self_list (self (snd (killAll demo_readCfg demo_socket st_race)))
  = [parsed_a; parsed_b; parsed_c] /\
  pid parsed_c <> PyInt (getpid (world st_race)) /\
  ~ In (Sigkill 300)
       (trace (world (snd (killAll demo_readCfg demo_socket st_race)))) /\
  ~ In (Stdout "SIGKILL sent to BrewPi instance with pid 300!")
       (trace (world (snd (killAll demo_readCfg demo_socket st_race)))).
Proof.
  split; [vm_compute; reflexivity|]. split; [discriminate|].
  assert (trace (world (snd (killAll demo_readCfg demo_socket st_race))) = [])
    as -> by (vm_compute; reflexivity).
  split; intros [].
Qed.

(** The same batch in the quiet world, where nobody exits, signals 200 and
    300 and spares the caller. *)
Example killAll_quiet :
  fst (killAll demo_readCfg demo_socket st_quiet) = Ok tt /\
  trace (world (snd (killAll demo_readCfg demo_socket st_quiet)))
  = [Sigkill 200; Stdout "SIGKILL sent to BrewPi instance with pid 200!";
     Sigkill 300; Stdout "SIGKILL sent to BrewPi instance with pid 300!"].
Proof. vm_compute. split; reflexivity. Qed.

(** ** Scenarios *)

(** Two instances with different config files on the same serial port
    conflict. *)
Example conflict_shared_port :
  conflict
    {| pid := PyInt 100; cfg := Some cfg_a; port := PyStr "/dev/ttyUSB0";
       sock := Some (demo_socket cfg_a) |}
    {| pid := PyInt 200; cfg := Some cfg_b; port := PyStr "/dev/ttyUSB0";
       sock := Some (demo_socket cfg_b) |}
  = Ok 1.
Proof. apply conflict_shared_resource; [discriminate|right; reflexivity]. Qed.

(** Two instances that differ in pid, config, port and socket do not
    conflict. *)
Example conflict_disjoint : conflict parsed_a parsed_b = Ok 0.
Proof. vm_compute. reflexivity. Qed.

(** Two freshly constructed records have the same pid, [None], and do not
    conflict. *)
Example conflict_fresh : conflict BrewPiProcess_init BrewPiProcess_init = Ok 0.
Proof. reflexivity. Qed.

(** The caller finds the instance on the default configuration in its
    way, and [quitAll] asks both other instances to quit; nobody listens, so
    both refusals are reported and the batch still completes. *)
Example findConflicts_quiet :
  findConflicts parsed_a st_refreshed = (Ok 1, st_refreshed).
Proof. vm_compute. reflexivity. Qed.

Example quitAll_quiet :
  fst (quitAll demo_readCfg demo_socket st_quiet) = Ok tt /\
  trace (world (snd (quitAll demo_readCfg demo_socket st_quiet)))
  = [Connect (demo_socket cfg_b);
     Stdout "Could not connect to socket of BrewPi process, maybe it just started and is not listening yet.";
     Stdout "Could not send quit message to BrewPi instance with pid 200!";
     Connect (demo_socket cfg_a);
     Stdout "Could not connect to socket of BrewPi process, maybe it just started and is not listening yet.";
     Stdout "Could not send quit message to BrewPi instance with pid 300!"].
Proof. vm_compute. split; reflexivity. Qed.

(** A process that may not be signalled is reported on standard error and
    the batch goes on to the next record. *)
Example killAll_permission_denied :
  let w := {| getpid := 100;
              process_table :=
                [proc_100;
                 {| _pid := 200; name := "python";
                    cmdline := ["python"; "brewpi.py"]; killable := false |};
                 proc_300];
              listening := []; trace := []; env := [] |} in
  let st := {| world := w; self := BrewPiProcesses_init |} in
  fst (killAll demo_readCfg demo_socket st) = Ok tt /\
  trace (world (snd (killAll demo_readCfg demo_socket st)))
  = [Stderr "Cannot kill process 200, you need root permission to do that.";
     Stderr "Is the process running under the same user?";
     Sigkill 300; Stdout "SIGKILL sent to BrewPi instance with pid 300!"].
Proof. vm_compute. split; reflexivity. Qed.

(** * Further properties *)

(** ** The conflict predicate is symmetric *)

Lemma py_eq_sym (a b : pyval) : py_eq a b = py_eq b a.
Proof. unfold py_eq. apply bool_decide_ext. split; congruence. Qed.

Lemma pylist_eq_sym (l1 : list pyval) :
  forall l2, pylist_eq l1 l2 = pylist_eq l2 l1.
Proof.
  induction l1 as [|x l1 IH]; intros [|y l2]; try reflexivity.
  cbn. rewrite (py_eq_sym x y), (IH l2). reflexivity.
Qed.

(** X1: [conflict] does not depend on which of the two records is asked:
    [a.conflict(b)] and [b.conflict(a)] return the same number or raise the
    same error, for all records, with or without socket descriptor. *)
Theorem conflict_symmetric (a b : BrewPiProcess) :
  conflict a b = conflict b a.
Proof.
  unfold conflict. rewrite (py_eq_sym (pid b) (pid a)).
  destruct (py_eq (pid a) (pid b)); [reflexivity|].
  rewrite (bool_decide_ext (cfg b = cfg a) (cfg a = cfg b))
    by (split; congruence).
  destruct (bool_decide (cfg a = cfg b)); [reflexivity|].
  rewrite (py_eq_sym (port b) (port a)).
  destruct (py_eq (port a) (port b)); [reflexivity|].
  destruct (sock a) as [sa|], (sock b) as [sb|]; cbn [sock_fields sock_attr];
    try reflexivity.
  rewrite pylist_eq_sym. reflexivity.
Qed.

(** ** What [kill] does to the world *)

Lemma find_pid_remove_eq (z : Z) (t : list OsProcess) :
  find_pid z (remove_pid z t) = None.
Proof.
  unfold find_pid, remove_pid. induction t as [|q t IH]; [reflexivity|].
  cbn. destruct (Z.eqb_spec (_pid q) z) as [E|E]; cbn; [exact IH|].
  destruct (Z.eqb_spec (_pid q) z); [contradiction|exact IH].
Qed.

(** X2: a permission denial is caught inside [kill].  When the process is
    there but the caller may not signal it, [kill] returns normally, writes
    its two lines to standard error and nothing else (no signal is sent),
    and the process is still in the process table. *)
Theorem kill_permission_denied_reported (p : BrewPiProcess) (z : Z)
    (w : World) (q q' : OsProcess) :
  pid p = PyInt z ->
  find_pid z (process_table (env_step w)) = Some q ->
  find_pid z (process_table (env_step (env_step w))) = Some q' ->
  killable q' = false ->
  exists w', kill p w = (Ok tt, w') /\
    find_pid z (process_table w') = Some q' /\
    trace w' = trace w ++
      [Stderr ("Cannot kill process " ++ pretty z
               ++ ", you need root permission to do that.");
       Stderr "Is the process running under the same user?"].
Proof.
  intros Hp Hq Hq' Hk.
  rewrite (kill_access_denied p z w q q' Hp Hq Hq' Hk).
  eexists. split; [reflexivity|]. cbn.
  rewrite !trace_env_step, <- app_assoc. split; [exact Hq'|reflexivity].
Qed.

Lemma kill_permission_denied_reported_witness :
  exists w', kill parsed_b world_foreign = (Ok tt, w') /\
    find_pid 200 (process_table w') = Some proc_200_foreign /\
    trace w' = trace world_foreign ++
      [Stderr "Cannot kill process 200, you need root permission to do that.";
       Stderr "Is the process running under the same user?"].
Proof.
  apply (kill_permission_denied_reported parsed_b 200 world_foreign
           proc_200_foreign proc_200_foreign); reflexivity.
Defined.

(** X3: a pid that has exited is not handled.  When the process is gone
    at the moment [kill] creates the process handle, or goes between that
    and the signal, [kill] raises [NoSuchProcess] for that pid and has
    written nothing to the console. *)
Theorem kill_exited_pid_raises (p : BrewPiProcess) (z : Z) (w : World) :
  pid p = PyInt z ->
  find_pid z (process_table (env_step w)) = None \/
  find_pid z (process_table (env_step (env_step w))) = None ->
  fst (kill p w) = Raise (NoSuchProcess z) /\
  trace (snd (kill p w)) = trace w.
Proof.
  intros Hp H.
  destruct (find_pid z (process_table (env_step w))) as [q|] eqn:Hq.
  - destruct H as [H|H]; [discriminate H|].
    rewrite (kill_vanished_late p z w q Hp Hq H). cbn.
    rewrite !trace_env_step. split; reflexivity.
  - rewrite (kill_vanished p z w Hp Hq). cbn.
    rewrite trace_env_step. split; reflexivity.
Qed.

Lemma kill_exited_pid_raises_witness :
  fst (kill parsed_b world_race) = Raise (NoSuchProcess 200) /\
  trace (snd (kill parsed_b world_race)) = trace world_race.
Proof.
  apply (kill_exited_pid_raises parsed_b 200 world_race);
    [reflexivity|left; reflexivity].
Defined.

(** X4: a delivered signal removes the target and nothing else.  When the
    process is there and may be signalled, [kill] returns normally, the
    trace gains the signal to that pid and the confirmation line, the pid is
    gone from the process table, and every other pid is found in the table
    exactly as before the signal. *)
Theorem kill_delivered_removes_only_target (p : BrewPiProcess) (z : Z)
    (w : World) (q q' : OsProcess) :
  pid p = PyInt z ->
  find_pid z (process_table (env_step w)) = Some q ->
  find_pid z (process_table (env_step (env_step w))) = Some q' ->
  killable q' = true ->
  exists w', kill p w = (Ok tt, w') /\
    find_pid z (process_table w') = None /\
    (forall y, y <> z ->
       find_pid y (process_table w')
       = find_pid y (process_table (env_step (env_step w)))) /\
    trace w' = trace w ++
      [Sigkill z;
       Stdout ("SIGKILL sent to BrewPi instance with pid "
               ++ pretty z ++ "!")].
Proof.
  intros Hp Hq Hq' Hk.
  rewrite (kill_delivered p z w q q' Hp Hq Hq' Hk).
  eexists. split; [reflexivity|]. cbn.
  split; [apply find_pid_remove_eq|].
  split; [intros y Hy; apply find_pid_remove_ne; exact Hy|].
  rewrite !trace_env_step, <- app_assoc. reflexivity.
Qed.

Lemma kill_delivered_removes_only_target_witness :
  exists w', kill parsed_b world_quiet = (Ok tt, w') /\
    find_pid 200 (process_table w') = None /\
    (forall y, y <> 200 ->
       find_pid y (process_table w')
       = find_pid y (process_table (env_step (env_step world_quiet)))) /\
    trace w' = trace world_quiet ++
      [Sigkill 200; Stdout "SIGKILL sent to BrewPi instance with pid 200!"].
Proof.
  apply (kill_delivered_removes_only_target parsed_b 200 world_quiet
           proc_200 proc_200); reflexivity.
Defined.

(** X5: whatever happens, [kill] only ever signals the pid of its own
    record: every signal it adds to the trace carries that pid; it only
    appends to the trace and does not change the caller's pid. *)
Theorem kill_signals_only_its_pid (p : BrewPiProcess) (w : World) :
  getpid (snd (kill p w)) = getpid w /\
  exists evs, trace (snd (kill p w)) = trace w ++ evs /\
              forall y, In (Sigkill y) evs -> pid p = PyInt y.
Proof. apply kill_effects. Qed.

(** ** What [quit] does to the world *)

Lemma quit_accepted_run (p : BrewPiProcess) (s : BrewPiSocket) (w : World) :
  sock p = Some s -> s ∈ listening w ->
  quit p w =
    (Ok tt,
     emit (Stdout ("Quit message sent to BrewPi instance with pid "
                   ++ fmt_s (pid p) ++ "!"))
       (emit (Close s) (emit (Send s "quit") (emit (Connect s) w)))).
Proof.
  intros Hs Hl. unfold quit. rewrite Hs. unfold bind at 1.
  rewrite connect_listening by assumption. reflexivity.
Qed.

Lemma quit_refused_run (p : BrewPiProcess) (s : BrewPiSocket) (w : World) :
  sock p = Some s -> s ∉ listening w ->
  quit p w =
    let w1 :=
      emit (Stdout "Could not connect to socket of BrewPi process, maybe it just started and is not listening yet.")
        (emit (Connect s) w) in
    match pid p with
    | PyInt z =>
        (Ok tt,
         emit (Stdout ("Could not send quit message to BrewPi instance with pid "
                       ++ pretty z ++ "!")) w1)
    | _ => (Raise TypeError, w1)
    end.
Proof.
  intros Hs Hl. unfold quit. rewrite Hs. unfold bind at 1.
  rewrite connect_refused by assumption.
  destruct (pid p) as [|z|x]; reflexivity.
Qed.

Lemma quit_effects (p : BrewPiProcess) (w : World) :
  process_table (snd (quit p w)) = process_table w /\
  getpid (snd (quit p w)) = getpid w /\
  listening (snd (quit p w)) = listening w /\
  exists evs, trace (snd (quit p w)) = trace w ++ evs /\
    (forall y, ~ In (Sigkill y) evs) /\
    (forall s m, In (Send s m) evs ->
       m = "quit" /\ sock p = Some s /\ s ∈ listening w).
Proof.
  destruct (sock p) as [s|] eqn:Hs.
  - destruct (decide (s ∈ listening w)) as [Hl|Hl].
    + rewrite (quit_accepted_run p s w Hs Hl). cbn.
      repeat (split; [reflexivity|]).
      eexists [Connect s; Send s "quit"; Close s; Stdout _].
      rewrite <- !app_assoc. split; [reflexivity|]. split.
      * intros y Hin. cbn in Hin. intuition discriminate.
      * intros s' m Hin. cbn in Hin.
        destruct Hin as [H|[H|[H|[H|[]]]]]; try discriminate H.
        injection H as <- <-. auto.
    + rewrite (quit_refused_run p s w Hs Hl). cbn zeta.
      destruct (pid p) as [|z|x]; cbn; repeat (split; [reflexivity|]).
      * eexists [Connect s; Stdout _].
        rewrite <- !app_assoc. split; [reflexivity|]. split.
        -- intros y Hin. cbn in Hin. intuition discriminate.
        -- intros s' m Hin. cbn in Hin. intuition discriminate.
      * eexists [Connect s; Stdout _; Stdout _].
        rewrite <- !app_assoc. split; [reflexivity|]. split.
        -- intros y Hin. cbn in Hin. intuition discriminate.
        -- intros s' m Hin. cbn in Hin. intuition discriminate.
      * eexists [Connect s; Stdout _].
        rewrite <- !app_assoc. split; [reflexivity|]. split.
        -- intros y Hin. cbn in Hin. intuition discriminate.
        -- intros s' m Hin. cbn in Hin. intuition discriminate.
  - rewrite quit_no_socket by assumption. cbn.
    repeat (split; [reflexivity|]).
    exists []. rewrite app_nil_r. split; [reflexivity|].
    split; [intros y []|intros s m []].
Qed.

(** X6: [quit] is harmless to the process table: it never sends a signal
    and leaves the table, the caller's pid and the listening sockets as they
    were.  It only appends to the trace, and the only message it ever sends
    is [quit], to the socket of its own record, and only when that socket
    accepts the connection. *)
Theorem quit_never_signals (p : BrewPiProcess) (w : World) :
  process_table (snd (quit p w)) = process_table w /\
  getpid (snd (quit p w)) = getpid w /\
  listening (snd (quit p w)) = listening w /\
  exists evs, trace (snd (quit p w)) = trace w ++ evs /\
    (forall y, ~ In (Sigkill y) evs) /\
    (forall s m, In (Send s m) evs ->
       m = "quit" /\ sock p = Some s /\ s ∈ listening w).
Proof. apply quit_effects. Qed.

(** X7: the two messages of [quit] format the pid differently.  The
    confirmation uses [%s] and prints any pid; the failure message uses
    [%d]: on a record whose pid is not a number, a refused connection makes
    [quit] print its first line and then raise [TypeError]. *)
Theorem quit_refused_without_pid (p : BrewPiProcess) (s : BrewPiSocket)
    (w : World) :
  sock p = Some s -> s ∉ listening w -> (forall z, pid p <> PyInt z) ->
  quit p w =
    (Raise TypeError,
     emit (Stdout "Could not connect to socket of BrewPi process, maybe it just started and is not listening yet.")
       (emit (Connect s) w)).
Proof.
  intros Hs Hl Hp. rewrite (quit_refused_run p s w Hs Hl). cbn zeta.
  destruct (pid p) as [|z|x]; try reflexivity.
  exfalso. apply (Hp z). reflexivity.
Qed.

Lemma quit_refused_without_pid_witness :
  quit rec_no_pid world_quiet =
    (Raise TypeError,
     emit (Stdout "Could not connect to socket of BrewPi process, maybe it just started and is not listening yet.")
       (emit (Connect (demo_socket cfg_a)) world_quiet)).
Proof.
  apply (quit_refused_without_pid rec_no_pid (demo_socket cfg_a) world_quiet).
  - reflexivity.
  - cbn. apply not_elem_of_nil.
  - intros z H. discriminate H.
Defined.

(** ** Invariants of the registry *)

Section RegistryInvariants.

Variable readCfg : World -> CfgArg -> Config.
Variable newSocket : Config -> BrewPiSocket.

(** [parseProcess] either returns the record of the process or fails on
    the missing [port] entry; it never changes the world. *)
Lemma parseProcess_cases (process : OsProcess) (w : World) :
  let c := readCfg w (cfg_argument process) in
  parseProcess readCfg newSocket process w =
    match c !! "port" with
    | Some v => (Ok {| pid := PyInt (_pid process); cfg := Some c;
                       port := v; sock := Some (newSocket c) |}, w)
    | None => (Raise (KeyError "port"), w)
    end.
Proof.
  cbn zeta. unfold parseProcess, bind, gets, getitem. cbn.
  destruct (readCfg w (cfg_argument process) !! "port"); reflexivity.
Qed.

Lemma parseProcess_Ok_inv (process : OsProcess) (w w' : World)
    (bp : BrewPiProcess) :
  parseProcess readCfg newSocket process w = (Ok bp, w') ->
  w' = w /\
  bp = {| pid := PyInt (_pid process);
          cfg := Some (readCfg w (cfg_argument process));
          port := port bp;
          sock := Some (newSocket (readCfg w (cfg_argument process))) |} /\
  readCfg w (cfg_argument process) !! "port" = Some (port bp).
Proof.
  rewrite parseProcess_cases. cbn zeta.
  destruct (readCfg w (cfg_argument process) !! "port") as [v|] eqn:E;
    intros H; [|discriminate H].
  injection H as <- <-. cbn. auto.
Qed.

Lemma parseProcess_derived (process : OsProcess) (w w' : World)
    (bp : BrewPiProcess) :
  parseProcess readCfg newSocket process w = (Ok bp, w') ->
  derived_from_config newSocket bp.
Proof.
  intros H. destruct (parseProcess_Ok_inv _ _ _ _ H) as (_ & -> & Hport).
  split; [eexists; reflexivity|]. eexists. cbn. eauto.
Qed.

Lemma update_loop_derived (matching : list OsProcess) :
  forall acc w l w',
    update_loop readCfg newSocket matching acc w = (Ok l, w') ->
    Forall (derived_from_config newSocket) acc ->
    Forall (derived_from_config newSocket) l.
Proof.
  induction matching as [|p rest IH]; intros acc w l w' H Hacc.
  - cbn in H. injection H as <- _. exact Hacc.
  - cbn [update_loop] in H. unfold bind in H.
    destruct (parseProcess readCfg newSocket p w) as [[bp|e] w1] eqn:Ep;
      [|discriminate H].
    apply (IH _ _ _ _ H). apply Forall_app. split; [exact Hacc|].
    constructor; [|constructor]. exact (parseProcess_derived _ _ _ _ Ep).
Qed.

Lemma update_Ok_inv (st st' : St) (l : list BrewPiProcess) :
  update readCfg newSocket st = (Ok l, st') ->
  st' = {| world := world st; self := {| self_list := l |} |} /\
  update_loop readCfg newSocket
    (List.filter is_brewpi (process_table (world st))) [] (world st)
  = (Ok l, world st).
Proof.
  unfold update, bind. rewrite in_world_run.
  cbn [fst snd process_iter gets world self]. rewrite in_world_run.
  cbn [fst snd world self].
  pose proof (update_loop_frame readCfg newSocket
                (List.filter is_brewpi (process_table (world st))) []
                (world st)) as Hf.
  destruct (update_loop _ _ _ _ _) as [[l0|e] w1]; cbn in Hf; subst w1;
    cbn; intros H; [|discriminate H].
  injection H as <- <-. auto.
Qed.

(** X8: after a successful [update] every stored record is derived from
    its configuration: the pid is a number, the record carries the
    configuration, its port is the configuration's [port] entry, and its
    socket descriptor is the one built from that configuration.  No stored
    record is without socket descriptor. *)
Theorem update_records_derived (st st' : St) (l : list BrewPiProcess) :
  update readCfg newSocket st = (Ok l, st') ->
  self_list (self st') = l /\
  Forall (derived_from_config newSocket) l /\
  Forall has_socket l.
Proof.
  intros H. destruct (update_Ok_inv _ _ _ H) as [-> Hl].
  pose proof (update_loop_derived _ _ _ _ _ Hl (List.Forall_nil _)) as Hd.
  split; [reflexivity|]. split; [exact Hd|].
  eapply List.Forall_impl; [|exact Hd].
  intros bp (_ & c & _ & _ & Hs). unfold has_socket. congruence.
Qed.

Lemma update_loop_raises (w : World) (matching : list OsProcess) :
  Exists (fun p => readCfg w (cfg_argument p) !! "port" = None) matching ->
  forall acc,
    update_loop readCfg newSocket matching acc w = (Raise (KeyError "port"), w).
Proof.
  induction 1 as [p rest Hp|p rest _ IH]; intros acc; cbn [update_loop];
    unfold bind; rewrite parseProcess_cases; cbn zeta.
  - rewrite Hp. reflexivity.
  - destruct (readCfg w (cfg_argument p) !! "port"); [apply IH|reflexivity].
Qed.

(** X9: [update] is all or nothing.  When the configuration of some
    matching process has no [port] entry, [update] raises [KeyError] for
    [port], and the registry still holds the list it held before; the world
    is unchanged. *)
Theorem update_failure_keeps_list (st : St) (p : OsProcess) :
  In p (process_table (world st)) -> is_brewpi p = true ->
  readCfg (world st) (cfg_argument p) !! "port" = None ->
  update readCfg newSocket st
  = (Raise (KeyError "port"), {| world := world st; self := self st |}).
Proof.
  intros Hin Hb Hport.
  assert (Exists (fun p => readCfg (world st) (cfg_argument p) !! "port" = None)
            (List.filter is_brewpi (process_table (world st)))) as Hex.
  { apply List.Exists_exists. exists p. split; [|exact Hport].
    apply filter_In. auto. }
  unfold update, bind. rewrite in_world_run.
  cbn [fst snd process_iter gets world self]. rewrite in_world_run.
  cbn [fst snd world self].
  rewrite (update_loop_raises _ _ Hex). reflexivity.
Qed.

(** X10: [update] depends on the world only, and refreshing twice is
    refreshing once: with a loader whose configurations have a port,
    [update] returns the same list whatever list was stored before, and a
    second [update] right after returns that list again and leaves the
    state as it is. *)
Theorem update_idempotent (st : St) :
  (forall a, is_Some (readCfg (world st) a !! "port")) ->
  exists l,
    let st' := {| world := world st; self := {| self_list := l |} |} in
    (forall reg, update readCfg newSocket {| world := world st; self := reg |}
                 = (Ok l, st')) /\
    update readCfg newSocket st' = (Ok l, st').
Proof.
  intros Hport. destruct (update_run readCfg newSocket st Hport) as (l & El & _).
  destruct (update_Ok_inv _ _ _ El) as [_ Hl].
  assert (forall reg, update readCfg newSocket {| world := world st; self := reg |}
                      = (Ok l, {| world := world st; self := {| self_list := l |} |}))
    as Hany.
  { intros reg. unfold update, bind. rewrite in_world_run.
    cbn [fst snd process_iter gets world self]. rewrite in_world_run.
    cbn [fst snd world self]. rewrite Hl. reflexivity. }
  exists l. cbn zeta. split; [exact Hany|apply Hany].
Qed.

(** X11: two instances started on the same configuration argument always
    conflict.  If two processes with different pids are parsed in the same
    world and the same argument (or no argument) names their config file,
    [conflict] between their records returns 1. *)
Theorem same_config_argument_conflicts (p1 p2 : OsProcess) (w w1 w2 : World)
    (a b : BrewPiProcess) :
  parseProcess readCfg newSocket p1 w = (Ok a, w1) ->
  parseProcess readCfg newSocket p2 w = (Ok b, w2) ->
  _pid p1 <> _pid p2 ->
  cfg_argument p1 = cfg_argument p2 ->
  conflict a b = Ok 1.
Proof.
  intros Ha Hb Hpid Harg.
  destruct (parseProcess_Ok_inv _ _ _ _ Ha) as (_ & Ea & _).
  destruct (parseProcess_Ok_inv _ _ _ _ Hb) as (_ & Eb & _).
  apply conflict_shared_resource.
  - rewrite Ea, Eb. cbn. congruence.
  - left. rewrite Ea, Eb. cbn. rewrite Harg. reflexivity.
Qed.

End RegistryInvariants.

Lemma update_records_derived_witness :
  self_list (self st_refreshed) = [parsed_a; parsed_b; parsed_c] /\
  Forall (derived_from_config demo_socket) [parsed_a; parsed_b; parsed_c] /\
  Forall has_socket [parsed_a; parsed_b; parsed_c].
Proof.
  apply (update_records_derived demo_readCfg demo_socket st_quiet st_refreshed).
  vm_compute. reflexivity.
Defined.

Lemma update_failure_keeps_list_witness :
  update portless_readCfg demo_socket st_refreshed
  = (Raise (KeyError "port"),
     {| world := world st_refreshed; self := self st_refreshed |}).
Proof.
  apply (update_failure_keeps_list portless_readCfg demo_socket
           st_refreshed proc_200).
  - cbn. auto.
  - reflexivity.
  - vm_compute. reflexivity.
Defined.

Lemma update_idempotent_witness :
  exists l,
    let st' := {| world := world st_quiet; self := {| self_list := l |} |} in
    (forall reg,
       update demo_readCfg demo_socket {| world := world st_quiet; self := reg |}
       = (Ok l, st')) /\
    update demo_readCfg demo_socket st' = (Ok l, st').
Proof.
  apply (update_idempotent demo_readCfg demo_socket st_quiet).
  intros a. apply demo_readCfg_has_port.
Defined.

Lemma same_config_argument_conflicts_witness :
  conflict parsed_a parsed_c = Ok 1.
Proof.
  apply (same_config_argument_conflicts demo_readCfg demo_socket
           proc_100 proc_300 world_quiet world_quiet world_quiet).
  - vm_compute. reflexivity.
  - vm_compute. reflexivity.
  - cbn. lia.
  - reflexivity.
Defined.

(** ** The start-up check: refresh, find myself, look for conflicts *)

Section StartupCheck.

Variable readCfg : World -> CfgArg -> Config.
Variable newSocket : Config -> BrewPiSocket.

Lemma me_run (st : St) (p : OsProcess) (v : pyval) :
  find_pid (getpid (world st)) (process_table (world st)) = Some p ->
  readCfg (env_step (world st)) (cfg_argument p) !! "port" = Some v ->
  me readCfg newSocket st =
    (Ok {| pid := PyInt (getpid (world st));
           cfg := Some (readCfg (env_step (world st)) (cfg_argument p));
           port := v;
           sock := Some (newSocket
                           (readCfg (env_step (world st)) (cfg_argument p))) |},
     {| world := env_step (world st); self := self st |}).
Proof.
  intros Hfind Hport.
  pose proof (parseProcess_run readCfg newSocket p _ v Hport) as Ep.
  pose proof (psutil_Process_self (world st) p Hfind) as Eself.
  destruct (find_pid_Some _ _ _ Hfind) as [Hpid _].
  unfold me, bind, in_world, gets. cbn -[psutil_Process parseProcess].
  rewrite Eself. cbn -[psutil_Process parseProcess].
  rewrite Ep, Hpid. reflexivity.
Qed.


End StartupCheck.


(** ** What the bulk operations do to the world *)

Lemma for_each_quit_effects (skip : BrewPiProcess -> bool)
    (l : list BrewPiProcess) :
  forall st,
    let st' := snd (for_each l (fun p => if skip p then ret tt
                                        else in_world (quit p)) st) in
    process_table (world st') = process_table (world st) /\
    getpid (world st') = getpid (world st) /\
    self st' = self st /\
    exists evs, trace (world st') = trace (world st) ++ evs /\
      (forall y, ~ In (Sigkill y) evs) /\
      (forall s m, In (Send s m) evs -> m = "quit").
Proof.
  induction l as [|p l IH]; intros st; cbn zeta.
  - cbn. repeat (split; [reflexivity|]). exists []. rewrite app_nil_r.
    split; [reflexivity|]. split; [intros y []|intros s m []].
  - cbn [for_each]. unfold bind. destruct (skip p).
    + cbn [ret]. apply IH.
    + rewrite in_world_run.
      destruct (quit_effects p (world st))
        as (Ht & Hg & _ & evs & Htr & Hnos & Hsend).
      destruct (fst (quit p (world st))) as [[]|e].
      * specialize (IH {| world := snd (quit p (world st)); self := self st |}).
        cbn zeta in IH.
        destruct IH as (Ht' & Hg' & Hself & evs' & Htr' & Hnos' & Hsend').
        cbn [world self] in *.
        split; [congruence|]. split; [congruence|]. split; [exact Hself|].
        exists (evs ++ evs'). rewrite Htr', Htr, app_assoc.
        split; [reflexivity|]. split.
        -- intros y Hin. apply in_app_iff in Hin as [Hin|Hin].
           ++ exact (Hnos y Hin).
           ++ exact (Hnos' y Hin).
        -- intros s m Hin. apply in_app_iff in Hin as [Hin|Hin].
           ++ apply (Hsend s m Hin).
           ++ apply (Hsend' s m Hin).
      * cbn. split; [exact Ht|]. split; [exact Hg|]. split; [reflexivity|].
        exists evs. split; [exact Htr|]. split; [exact Hnos|].
        intros s m Hin. apply (Hsend s m Hin).
Qed.

(** [kill] on a record that is not the caller's leaves the caller in the
    process table. *)
Lemma kill_keeps_self (p : BrewPiProcess) (w : World) :
  pid p <> PyInt (getpid w) ->
  find_pid (getpid w) (process_table (snd (kill p w)))
  = find_pid (getpid w) (process_table w).
Proof.
  intros Hne.
  assert (find_pid (getpid w) (process_table (env_step (env_step w)))
          = find_pid (getpid w) (process_table w)) as H2.
  { rewrite <- (getpid_env_step w) at 1.
    rewrite find_self_env_step, getpid_env_step. apply find_self_env_step. }
  destruct (pid p) as [|z|x] eqn:Hp.
  - unfold kill. rewrite Hp. reflexivity.
  - assert (getpid w <> z) as Hz by congruence.
    destruct (find_pid z (process_table (env_step w))) as [q|] eqn:Hq.
    + destruct (find_pid z (process_table (env_step (env_step w))))
        as [q'|] eqn:Hq'.
      * destruct (killable q') eqn:Hk.
        -- rewrite (kill_delivered p z w q q' Hp Hq Hq' Hk).
           cbn [snd process_table emit set_table].
           rewrite find_pid_remove_ne by exact Hz. exact H2.
        -- rewrite (kill_access_denied p z w q q' Hp Hq Hq' Hk). cbn.
           exact H2.
      * rewrite (kill_vanished_late p z w q Hp Hq Hq'). cbn. exact H2.
    + rewrite (kill_vanished p z w Hp Hq). cbn. apply find_self_env_step.
  - unfold kill. rewrite Hp. reflexivity.
Qed.

Lemma for_each_kill_keeps_self (myPid : Z) (l : list BrewPiProcess) :
  Forall (fun p => pid p <> PyInt myPid) l ->
  forall st, getpid (world st) = myPid ->
    find_pid myPid
      (process_table
         (world (snd (for_each l (fun p => in_world (kill p)) st))))
    = find_pid myPid (process_table (world st)).
Proof.
  induction 1 as [|p l Hp _ IH]; intros st Hme; [reflexivity|].
  cbn [for_each]. unfold bind. rewrite in_world_run.
  pose proof (kill_keeps_self p (world st)) as Hk. rewrite Hme in Hk.
  specialize (Hk Hp).
  destruct (kill_effects p (world st)) as (Hg & _).
  destruct (fst (kill p (world st))) as [[]|e].
  - rewrite IH; [exact Hk|]. cbn. congruence.
  - cbn. exact Hk.
Qed.

Section BulkEffects.

Variable readCfg : World -> CfgArg -> Config.
Variable newSocket : Config -> BrewPiSocket.

(** X13: [quitAll] is harmless to the process table, whatever the world
    and the loader: it never sends a signal, the process table and the
    caller's pid are afterwards what they were, and every message it sends
    is [quit].  With a loader whose configurations have a port it also
    always returns normally: refused connections are reported and the loop
    goes on. *)
Theorem quitAll_harmless (st : St) :
  let st' := snd (quitAll readCfg newSocket st) in
  process_table (world st') = process_table (world st) /\
  getpid (world st') = getpid (world st) /\
  (exists evs, trace (world st') = trace (world st) ++ evs /\
     (forall y, ~ In (Sigkill y) evs) /\
     (forall s m, In (Send s m) evs -> m = "quit")) /\
  ((forall a, is_Some (readCfg (world st) a !! "port")) ->
   fst (quitAll readCfg newSocket st) = Ok tt).
Proof.
  cbn zeta.
  assert (process_table (world (snd (quitAll readCfg newSocket st)))
            = process_table (world st) /\
          getpid (world (snd (quitAll readCfg newSocket st)))
            = getpid (world st) /\
          exists evs,
            trace (world (snd (quitAll readCfg newSocket st)))
              = trace (world st) ++ evs /\
            (forall y, ~ In (Sigkill y) evs) /\
            (forall s m, In (Send s m) evs -> m = "quit")) as (H1 & H2 & H3).
  { remember (quitAll readCfg newSocket st) as res eqn:E.
    unfold quitAll in E. unfold bind at 1 in E.
    rewrite in_world_run in E. cbn [fst snd gets] in E.
    set (st0 := {| world := world st; self := self st |}) in E.
    unfold bind at 1 in E.
    pose proof (update_frame readCfg newSocket st0) as Hu.
    destruct (update readCfg newSocket st0) as [[l|e] st1]; cbn [snd] in Hu.
    - unfold bind at 1 in E. cbn [gets] in E. subst res.
      destruct (for_each_quit_effects
                  (fun p => py_eq (pid p) (PyInt (getpid (world st))))
                  (self_list (self st1)) st1)
        as (Ht & Hg & _ & evs & Htr & Hnos & Hsend).
      cbn zeta in Ht, Hg, Htr.
      rewrite Ht, Hg, Htr, Hu. cbn.
      split; [reflexivity|]. split; [reflexivity|].
      exists evs. auto.
    - subst res. cbn [snd]. rewrite Hu. cbn.
      repeat (split; [reflexivity|]). exists []. rewrite app_nil_r.
      split; [reflexivity|]. split; [intros y []|intros s m []]. }
  split; [exact H1|]. split; [exact H2|]. split; [exact H3|].
  apply quitAll_returns.
Qed.

(** X14: [killAll] does not commit suicide, whatever else happens: no
    SIGKILL for the caller's own pid is added to the trace, and the caller
    is found in the process table afterwards exactly as before, also when
    the batch is cut short by an exception. *)
Theorem killAll_spares_caller (st : St) :
  let st' := snd (killAll readCfg newSocket st) in
  getpid (world st') = getpid (world st) /\
  find_pid (getpid (world st)) (process_table (world st'))
  = find_pid (getpid (world st)) (process_table (world st)) /\
  exists evs, trace (world st') = trace (world st) ++ evs /\
              ~ In (Sigkill (getpid (world st))) evs.
Proof.
  cbn zeta.
  destruct (killAll_never_signals_self readCfg newSocket st) as (Hg & Hev).
  cbn zeta in Hg, Hev. split; [exact Hg|]. split; [|exact Hev].
  remember (killAll readCfg newSocket st) as res eqn:E.
  rewrite killAll_targets in E. unfold bind at 1 in E.
  rewrite in_world_run in E. cbn [fst snd gets] in E.
  set (st0 := {| world := world st; self := self st |}) in E.
  unfold bind at 1 in E.
  pose proof (update_frame readCfg newSocket st0) as Hu.
  destruct (update readCfg newSocket st0) as [[l|e] st1]; cbn [snd] in Hu.
  - unfold bind at 1 in E. cbn [gets] in E. subst res.
    rewrite for_each_kill_keeps_self.
    + rewrite Hu. reflexivity.
    + apply List.Forall_forall. intros p Hin. apply filter_In in Hin as [_ Hp].
      apply negb_true_iff, py_eq_false in Hp. exact Hp.
    + rewrite Hu. reflexivity.
  - subst res. cbn [snd]. rewrite Hu. reflexivity.
Qed.


End BulkEffects.

Lemma quitAll_harmless_witness :
  fst (quitAll demo_readCfg demo_socket st_quiet) = Ok tt.
Proof.
  apply (quitAll_harmless demo_readCfg demo_socket st_quiet).
  intros a. apply demo_readCfg_has_port.
Defined.

(** ** [killAll] when nothing interferes *)

Lemma env_step_quiet (w : World) : env w = [] -> env_step w = w.
Proof. intros H. unfold env_step. rewrite H. reflexivity. Qed.

Lemma find_pid_NoDup (t : list OsProcess) (q : OsProcess) :
  List.NoDup (map _pid t) -> In q t -> find_pid (_pid q) t = Some q.
Proof.
  unfold find_pid. induction t as [|x t IH]; intros Hnd Hin; [destruct Hin|].
  cbn in Hnd. apply List.NoDup_cons_iff in Hnd as [Hx Hnd]. cbn.
  destruct Hin as [->|Hin].
  - rewrite Z.eqb_refl. reflexivity.
  - destruct (Z.eqb_spec (_pid x) (_pid q)) as [E|E].
    + exfalso. apply Hx. rewrite E. apply in_map. exact Hin.
    + apply IH; assumption.
Qed.

Lemma same_pid_same_process (t : list OsProcess) (x y : OsProcess) :
  List.NoDup (map _pid t) -> In x t -> In y t -> _pid x = _pid y -> x = y.
Proof.
  intros Hnd Hx Hy E.
  pose proof (find_pid_NoDup t x Hnd Hx) as Fx.
  pose proof (find_pid_NoDup t y Hnd Hy) as Fy.
  rewrite E in Fx. congruence.
Qed.

Lemma NoDup_map_filter {A B} (f : A -> B) (g : A -> bool) (l : list A) :
  List.NoDup (map f l) -> List.NoDup (map f (List.filter g l)).
Proof.
  induction l as [|x l IH]; intros H; [constructor|].
  cbn in H. apply List.NoDup_cons_iff in H as [Hx Hnd]. cbn.
  destruct (g x); [|apply IH; exact Hnd].
  cbn. apply List.NoDup_cons_iff. split; [|apply IH; exact Hnd].
  intros Hin. apply Hx. apply in_map_iff in Hin as (y & Ey & Hy).
  apply filter_In in Hy as [Hy _]. apply in_map_iff. eauto.
Qed.

Lemma Forall2_filter_both {A B} (R : A -> B -> Prop) (f : A -> bool)
    (g : B -> bool) (xs : list A) (ys : list B) :
  (forall x y, R x y -> f x = g y) ->
  Forall2 R xs ys -> Forall2 R (List.filter f xs) (List.filter g ys).
Proof.
  intros Hfg. induction 1 as [|x y xs ys Hxy _ IH]; [constructor|].
  cbn. rewrite <- (Hfg x y Hxy). destruct (f x); [constructor|]; assumption.
Qed.

(** In a quiet world [kill] on a process that is there and may be
    signalled delivers the signal. *)
Lemma kill_quiet (p : BrewPiProcess) (z : Z) (w : World) (q : OsProcess) :
  env w = [] -> pid p = PyInt z ->
  find_pid z (process_table w) = Some q -> killable q = true ->
  kill p w =
    (Ok tt,
     emit (Stdout ("SIGKILL sent to BrewPi instance with pid "
                   ++ pretty z ++ "!"))
       (set_table (remove_pid z (process_table w)) (emit (Sigkill z) w))).
Proof.
  intros He Hp Hq Hk.
  pose proof (env_step_quiet w He) as E1.
  rewrite (kill_delivered p z w q q Hp); rewrite ?E1; auto.
Qed.

Lemma for_each_kill_trace_grows (bps : list BrewPiProcess) :
  forall st, exists evs,
    trace (world (snd (for_each bps (fun p => in_world (kill p)) st)))
    = trace (world st) ++ evs.
Proof.
  induction bps as [|b bps IH]; intros st.
  - exists []. cbn. rewrite app_nil_r. reflexivity.
  - cbn [for_each]. unfold bind. rewrite in_world_run.
    destruct (kill_effects b (world st)) as (_ & evs & Ht & _).
    destruct (fst (kill b (world st))) as [[]|e].
    + destruct (IH {| world := snd (kill b (world st)); self := self st |})
        as [evs' Hevs'].
      cbn [world] in Hevs'.
      exists (evs ++ evs'). rewrite Hevs', Ht, app_assoc. reflexivity.
    + exists evs. exact Ht.
Qed.

(** A loop of [kill] over records of distinct pids that are all there and
    may be signalled removes exactly these pids from the table. *)
Lemma for_each_kill_quiet (qs : list OsProcess) (bps : list BrewPiProcess) :
  Forall2 (fun q bp => pid bp = PyInt (_pid q)) qs bps ->
  List.NoDup (map _pid qs) ->
  forall st,
    env (world st) = [] ->
    (forall q, In q qs ->
       exists q', find_pid (_pid q) (process_table (world st)) = Some q' /\
                  killable q' = true) ->
    let res := for_each bps (fun p => in_world (kill p)) st in
    fst res = Ok tt /\
    (forall x, In x (process_table (world (snd res))) <->
               In x (process_table (world st)) /\ ~ In (_pid x) (map _pid qs)) /\
    (forall q, In q qs -> In (Sigkill (_pid q)) (trace (world (snd res)))).
Proof.
  induction 1 as [|q bp qs bps Hq _ IH]; intros Hnd st He Hall; cbn zeta.
  - cbn. split; [reflexivity|]. split; [|intros q []].
    intros x. tauto.
  - cbn in Hnd. apply List.NoDup_cons_iff in Hnd as [Hfresh Hnd].
    destruct (Hall q (or_introl eq_refl)) as (q' & Hfind & Hk).
    cbn [for_each]. unfold bind. rewrite in_world_run.
    rewrite (kill_quiet bp (_pid q) (world st) q' He Hq Hfind Hk).
    cbn [fst snd].
    set (w1 := emit _ (set_table _ (emit _ (world st)))).
    specialize (IH Hnd {| world := w1; self := self st |}).
    cbn zeta in IH. cbn [world] in IH.
    destruct IH as (Hok & Htab & Htr).
    + unfold w1. cbn. exact He.
    + intros y Hy. destruct (Hall y (or_intror Hy)) as (y' & Hfy & Hky).
      exists y'. split; [|exact Hky].
      unfold w1. cbn [process_table emit set_table].
      rewrite find_pid_remove_ne; [exact Hfy|].
      intros E. apply Hfresh. rewrite <- E. apply in_map. exact Hy.
    + split; [exact Hok|]. split.
      * intros x. rewrite Htab. unfold w1.
        cbn [process_table emit set_table map]. unfold remove_pid.
        rewrite filter_In, negb_true_iff, Z.eqb_neq. cbn [In].
        intuition congruence.
      * intros y [<-|Hy]; [|apply Htr; exact Hy].
        destruct (for_each_kill_trace_grows bps
                    {| world := w1; self := self st |}) as [evs Hevs].
        cbn [world] in Hevs.
        rewrite Hevs. apply in_app_iff. left. unfold w1. cbn.
        apply in_app_iff. left. apply in_app_iff. right. left. reflexivity.
Qed.

Lemma py_eq_PyInt (a b : Z) : py_eq (PyInt a) (PyInt b) = Z.eqb a b.
Proof.
  unfold py_eq. destruct (Z.eqb_spec a b) as [->|Hne].
  - apply bool_decide_eq_true_2. reflexivity.
  - apply bool_decide_eq_false_2. congruence.
Qed.

Section KillAllQuiet.

Variable readCfg : World -> CfgArg -> Config.
Variable newSocket : Config -> BrewPiSocket.

(** X16: [killAll] kills every other instance when nothing interferes.  In
    a world where no process exits on its own, pids are unique, the loader's
    configurations have a port, and every matching process other than the
    caller may be signalled, [killAll] returns normally; afterwards the
    process table holds exactly the processes that did not match the filter
    or are the caller, and the trace holds a SIGKILL for every matching
    process other than the caller. *)
Theorem killAll_kills_every_other_instance (st : St) :
  env (world st) = [] ->
  List.NoDup (map _pid (process_table (world st))) ->
  (forall a, is_Some (readCfg (world st) a !! "port")) ->
  (forall q, In q (process_table (world st)) -> is_brewpi q = true ->
             _pid q <> getpid (world st) -> killable q = true) ->
  let st' := snd (killAll readCfg newSocket st) in
  fst (killAll readCfg newSocket st) = Ok tt /\
  (forall x, In x (process_table (world st')) <->
             In x (process_table (world st)) /\
             (is_brewpi x = false \/ _pid x = getpid (world st))) /\
  (forall q, In q (process_table (world st)) -> is_brewpi q = true ->
             _pid q <> getpid (world st) ->
             In (Sigkill (_pid q)) (trace (world st'))).
Proof.
  intros He Hnd Hport Hkill. cbn zeta.
  set (me := getpid (world st)).
  set (tbl := process_table (world st)).
  set (qs := List.filter (fun q => negb (Z.eqb (_pid q) me))
                         (List.filter is_brewpi tbl)).
  assert (forall q, In q qs <->
                    In q tbl /\ is_brewpi q = true /\ _pid q <> me) as Hqs.
  { intros q. unfold qs. rewrite !filter_In, negb_true_iff, Z.eqb_neq. tauto. }
  remember (killAll readCfg newSocket st) as res eqn:E.
  rewrite killAll_targets in E. unfold bind at 1 in E.
  rewrite in_world_run in E. cbn [fst snd gets] in E.
  set (st0 := {| world := world st; self := self st |}) in E.
  destruct (update_run readCfg newSocket st0 Hport) as (l & El & Hl).
  unfold bind at 1 in E. rewrite El in E.
  unfold bind at 1 in E. cbn [gets self self_list] in E.
  cbn [world st0] in Hl, E. fold me in E. fold tbl in Hl.
  set (st1 := {| world := world st; self := {| self_list := l |} |}) in E.
  assert (Forall2 (fun q bp => pid bp = PyInt (_pid q)) qs
            (List.filter (fun p => negb (py_eq (pid p) (PyInt me))) l)) as HF.
  { eapply List.Forall2_impl; [|apply Forall2_filter_both; [|exact Hl]].
    - intros a b [_ Hab]. exact Hab.
    - intros x y [_ Hxy]. cbn beta. rewrite Hxy, py_eq_PyInt. reflexivity. }
  assert (List.NoDup (map _pid qs)) as Hndq.
  { unfold qs. apply NoDup_map_filter, NoDup_map_filter. exact Hnd. }
  destruct (for_each_kill_quiet qs _ HF Hndq st1) as (Hok & Htab & Htr).
  { exact He. }
  { intros q Hq. apply Hqs in Hq as (Hin & Hb & Hne).
    exists q. split; [apply find_pid_NoDup; assumption|].
    apply Hkill; assumption. }
  cbn zeta in Hok, Htab, Htr. rewrite <- E in Hok, Htab, Htr.
  cbn [world st1] in Htab.
  split; [exact Hok|]. split.
  - intros x. rewrite Htab. fold tbl. split; intros [Hin Hx]; (split; [exact Hin|]).
    + destruct (is_brewpi x) eqn:Hb; [|left; reflexivity].
      destruct (Z.eq_dec (_pid x) me) as [Hm|Hm]; [right; exact Hm|].
      exfalso. apply Hx. apply in_map. apply Hqs. auto.
    + intros Hmem. apply in_map_iff in Hmem as (y & Ey & Hy).
      apply Hqs in Hy as (Hy & Hby & Hney).
      assert (y = x) as -> by exact (same_pid_same_process tbl y x Hnd Hy Hin Ey).
      destruct Hx as [Hx|Hx]; congruence.
  - intros q Hin Hb Hne. apply Htr. apply Hqs. auto.
Qed.

End KillAllQuiet.

Lemma killAll_kills_every_other_instance_witness :
  fst (killAll demo_readCfg demo_socket st_quiet) = Ok tt /\
  (forall x,
     In x (process_table
             (world (snd (killAll demo_readCfg demo_socket st_quiet)))) <->
     In x (process_table (world st_quiet)) /\
     (is_brewpi x = false \/ _pid x = getpid (world st_quiet))) /\
  (forall q, In q (process_table (world st_quiet)) -> is_brewpi q = true ->
             _pid q <> getpid (world st_quiet) ->
             In (Sigkill (_pid q))
                (trace (world (snd (killAll demo_readCfg demo_socket
                                      st_quiet))))).
Proof.
  apply (killAll_kills_every_other_instance demo_readCfg demo_socket st_quiet).
  - reflexivity.
  - cbn. repeat constructor; cbn; intuition lia.
  - intros a. apply demo_readCfg_has_port.
  - cbn. intros q [<-|[<-|[<-|[<-|[]]]]]; cbn; intros; try reflexivity;
      try discriminate; lia.
Defined.

(** ** The two filters on the command line *)

Lemma prefix_spec (a : string) :
  forall b, String.prefix a b = true <-> exists post, b = (a ++ post)%string.
Proof.
  induction a as [|c a IH]; intros b.
  - split; [intros _; exists b; reflexivity|].
    intros _. destruct b; reflexivity.
  - destruct b as [|d b]; cbn.
    + split; [discriminate|]. intros [post H]. discriminate H.
    + destruct (ascii_dec c d) as [->|Hne].
      * rewrite IH. split; intros [post H]; exists post.
        -- rewrite H. reflexivity.
        -- injection H as H. exact H.
      * split; [discriminate|]. intros [post H]. injection H as H _.
        congruence.
Qed.

(** [contains] is the substring test. *)
Lemma contains_spec (sub : string) :
  forall s, contains sub s = true <->
            exists pre post, s = (pre ++ sub ++ post)%string.
Proof.
  induction s as [|c s IH]; cbn [contains].
  - destruct (String.prefix sub "") eqn:E.
    + split; [|reflexivity]. intros _.
      apply prefix_spec in E as [post E]. exists "", post. exact E.
    + split; [discriminate|]. intros (pre & post & H).
      destruct pre as [|x pre]; [|discriminate H].
      assert (String.prefix sub "" = true) as E'
        by (apply prefix_spec; exists post; exact H).
      congruence.
  - destruct (String.prefix sub (String c s)) eqn:E.
    + split; [|reflexivity]. intros _.
      apply prefix_spec in E as [post E]. exists "", post. exact E.
    + rewrite IH. split.
      * intros (pre & post & H). exists (String c pre), post.
        rewrite H. reflexivity.
      * intros (pre & post & H). destruct pre as [|x pre].
        -- assert (String.prefix sub (String c s) = true) as E'
             by (apply prefix_spec; exists post; exact H).
           congruence.
        -- injection H as _ H. exists pre, post. exact H.
Qed.

(** X17: which processes [update] takes for BrewPi instances.  A process
    passes the filter exactly when ["python"] occurs somewhere in its name
    and some command-line argument has ["brewpi.py"] somewhere in it, as a
    substring and not as the whole argument or its end; a process with an
    empty command line never passes, whatever its name. *)
Theorem is_brewpi_spec (p : OsProcess) :
  (is_brewpi p = true <->
     (exists pre post, name p = (pre ++ "python" ++ post)%string) /\
     (exists s, In s (cmdline p) /\
        exists pre post, s = (pre ++ "brewpi.py" ++ post)%string)) /\
  (cmdline p = [] -> is_brewpi p = false).
Proof.
  split.
  - unfold is_brewpi. rewrite existsb_exists. split.
    + intros (s & Hin & H). apply andb_true_iff in H as [Hn Hs].
      split; [apply contains_spec; exact Hn|].
      exists s. split; [exact Hin|apply contains_spec; exact Hs].
    + intros (Hn & s & Hin & Hs). exists s. split; [exact Hin|].
      apply andb_true_iff. split; apply contains_spec; assumption.
  - intros H. unfold is_brewpi. rewrite H. reflexivity.
Qed.

Lemma is_brewpi_spec_witness :
  is_brewpi {| _pid := 7; name := "python2.7"; cmdline := []; killable := true |}
  = false.
Proof.
  apply (is_brewpi_spec
           {| _pid := 7; name := "python2.7"; cmdline := [];
              killable := true |}).
  reflexivity.
Defined.

Lemma filter_first {A} (f : A -> bool) (l : list A) :
  match List.filter f l with
  | [] => forall x, In x l -> f x = false
  | c :: _ => exists pre post, l = pre ++ c :: post /\ f c = true /\
                               forall x, In x pre -> f x = false
  end.
Proof.
  induction l as [|a l IH]; cbn; [intros x []|].
  destruct (f a) eqn:Ea.
  - exists [], l. split; [reflexivity|]. split; [exact Ea|intros x []].
  - destruct (List.filter f l) as [|c rest].
    + intros x [<-|Hx]; [exact Ea|apply IH; exact Hx].
    + destruct IH as (pre & post & -> & Hc & Hpre).
      exists (a :: pre), post. split; [reflexivity|]. split; [exact Hc|].
      intros x [<-|Hx]; [exact Ea|apply Hpre; exact Hx].
Qed.

Lemma filter_none {A} (f : A -> bool) (l : list A) :
  (forall x, In x l -> f x = false) -> List.filter f l = [].
Proof.
  induction l as [|a l IH]; intros H; [reflexivity|]. cbn.
  rewrite (H a (or_introl eq_refl)). apply IH. intros x Hx. apply H. right.
  exact Hx.
Qed.

(** X18: which argument [parseProcess] takes for the config file: the
    first command-line argument that has [".cfg"] somewhere in it, wherever
    it stands on the command line; and the empty list exactly when no
    argument has. *)
Theorem cfg_argument_spec (p : OsProcess) :
  (cfg_argument p = CfgEmptyList <->
     forall s, In s (cmdline p) -> contains ".cfg" s = false) /\
  (forall c, cfg_argument p = CfgFile c <->
     exists pre post, cmdline p = pre ++ c :: post /\
       (exists a b, c = (a ++ ".cfg" ++ b)%string) /\
       forall s, In s pre -> contains ".cfg" s = false).
Proof.
  unfold cfg_argument.
  pose proof (filter_first (contains ".cfg") (cmdline p)) as H.
  split.
  - split.
    + destruct (List.filter (contains ".cfg") (cmdline p)); [|discriminate].
      intros _. exact H.
    + intros Hno. rewrite (filter_none _ _ Hno). reflexivity.
  - intros c. split.
    + destruct (List.filter (contains ".cfg") (cmdline p)) as [|c' rest];
        [discriminate|].
      intros E. injection E as <-.
      destruct H as (pre & post & Hl & Hc & Hpre).
      exists pre, post. split; [exact Hl|]. split; [|exact Hpre].
      apply contains_spec. exact Hc.
    + intros (pre & post & Hl & Hc & Hpre). rewrite Hl.
      rewrite List.filter_app, (filter_none _ _ Hpre). cbn.
      apply contains_spec in Hc. rewrite Hc. reflexivity.
Qed.

Lemma cfg_argument_spec_witness :
  cfg_argument proc_200 = CfgFile "/b.cfg".
Proof.
  apply (cfg_argument_spec proc_200).
  exists ["python"; "/home/brewpi/brewpi.py"; "--config"], [].
  split; [reflexivity|]. split.
  - exists "/b", "". reflexivity.
  - cbn. intros s [<-|[<-|[<-|[]]]]; reflexivity.
Defined.

(** ** More on scanning for conflicts *)

Lemma findConflicts_loop_app (c : BrewPiProcess) (l1 l2 : list BrewPiProcess) :
  findConflicts_loop c (l1 ++ l2) =
    match findConflicts_loop c l1 with
    | Ok r => if truthy r then Ok 1 else findConflicts_loop c l2
    | Raise e => Raise e
    end.
Proof.
  induction l1 as [|p l1 IH]; [reflexivity|].
  cbn [app findConflicts_loop].
  destruct (py_eq (pid c) (pid p)); [exact IH|].
  destruct (conflict c p) as [r|e]; [|reflexivity].
  destruct (truthy r); [reflexivity|exact IH].
Qed.

(** X19: the scan stops at the first conflict.  On a stored list
    [l1 ++ l2], [findConflicts] returns 1 as soon as it does on [l1] alone,
    raises as soon as it does on [l1] alone, and otherwise gives what it
    gives on [l2]: records after a conflict are never compared, and an error
    hidden behind a conflict never shows. *)
Theorem findConflicts_first_conflict_wins (c : BrewPiProcess) (w : World)
    (l1 l2 : list BrewPiProcess) :
  fst (findConflicts c {| world := w; self := {| self_list := l1 ++ l2 |} |}) =
    match fst (findConflicts c {| world := w; self := {| self_list := l1 |} |}) with
    | Ok r =>
        if truthy r then Ok 1
        else fst (findConflicts c
                    {| world := w; self := {| self_list := l2 |} |})
    | Raise e => Raise e
    end.
Proof. rewrite !findConflicts_run. cbn [fst self self_list]. apply findConflicts_loop_app. Qed.

(** X20: the answer of [findConflicts] does not depend on the order of the
    stored list (the order in which the processes were enumerated), as long
    as the candidate and all stored records carry a socket descriptor. *)
Theorem findConflicts_order_irrelevant (c : BrewPiProcess) (w w' : World)
    (l l' : list BrewPiProcess) :
  has_socket c -> Forall has_socket l -> Permutation l l' ->
  fst (findConflicts c {| world := w; self := {| self_list := l |} |})
  = fst (findConflicts c {| world := w'; self := {| self_list := l' |} |}).
Proof.
  intros Hc Hl Hperm. rewrite !findConflicts_run. cbn.
  assert (Forall has_socket l') as Hl'
    by (eapply Permutation_Forall; eassumption).
  destruct (findConflicts_loop_spec c l Hc Hl) as (r & Er & H01 & Hiff).
  destruct (findConflicts_loop_spec c l' Hc Hl') as (r' & Er' & H01' & Hiff').
  rewrite Er, Er'. f_equal.
  assert (truthy r = true <-> truthy r' = true) as Ht.
  { rewrite Hiff, Hiff'. split; intros (q & Hin & Hq); exists q; (split; [|exact Hq]).
    - eapply Permutation_in; eassumption.
    - eapply Permutation_in; [apply Permutation_sym|]; eassumption. }
  destruct H01 as [->| ->], H01' as [->| ->]; try reflexivity; cbn in Ht.
  - destruct Ht as [_ Ht]. discriminate (Ht eq_refl).
  - destruct Ht as [Ht _]. discriminate (Ht eq_refl).
Qed.

Lemma findConflicts_order_irrelevant_witness :
  fst (findConflicts parsed_a
         {| world := world_quiet;
            self := {| self_list := [parsed_a; parsed_b; parsed_c] |} |})
  = fst (findConflicts parsed_a
           {| world := world_race;
              self := {| self_list := [parsed_c; parsed_a; parsed_b] |} |}).
Proof.
  apply (findConflicts_order_irrelevant parsed_a world_quiet world_race).
  - unfold has_socket. discriminate.
  - repeat constructor; unfold has_socket; discriminate.
  - apply Permutation_sym.
    apply (Permutation_cons_app [parsed_a; parsed_b] [] parsed_c).
    rewrite app_nil_r. apply Permutation_refl.
Defined.

(** ** Records as dictionaries *)

Lemma as_dict_lookups (p : BrewPiProcess) :
  BrewPiProcess_as_dict p !! "pid" = Some (AttrVal (pid p)) /\
  BrewPiProcess_as_dict p !! "cfg" = Some (AttrCfg (cfg p)) /\
  BrewPiProcess_as_dict p !! "port" = Some (AttrVal (port p)) /\
  BrewPiProcess_as_dict p !! "sock" = Some (AttrSock (sock p)).
Proof. repeat split. Qed.



Lemma as_dict_loop_spec (myPid : Z) (l : list BrewPiProcess) :
  forall acc,
    as_dict_loop myPid l acc =
    acc ++ map BrewPiProcess_as_dict
             (List.filter (fun p => negb (py_eq (pid p) (PyInt myPid))) l).
Proof.
  induction l as [|p l IH]; intros acc; cbn [as_dict_loop List.filter map].
  - rewrite app_nil_r. reflexivity.
  - destruct (py_eq (pid p) (PyInt myPid)); cbn [negb].
    + apply IH.
    + rewrite IH, <- app_assoc. reflexivity.
Qed.

Section RegistryDictProperties.

Variable readCfg : World -> CfgArg -> Config.
Variable newSocket : Config -> BrewPiSocket.

(** X22: [as_dict] of the registry refreshes before it reports.  With a
    loader whose configurations have a port, it returns the dictionaries of
    the freshly enumerated records other than the caller's, in list order;
    no dictionary in the result has the caller's pid; and as a side effect
    the stored list is replaced by the full fresh list, the caller's record
    included. *)
Theorem registry_as_dict_spec (st : St) :
  (forall a, is_Some (readCfg (world st) a !! "port")) ->
  exists l,
    fst (update readCfg newSocket st) = Ok l /\
    as_dict readCfg newSocket st =
      (Ok (map BrewPiProcess_as_dict
             (List.filter
                (fun p => negb (py_eq (pid p) (PyInt (getpid (world st))))) l)),
       {| world := world st; self := {| self_list := l |} |}) /\
    forall d, In d (match fst (as_dict readCfg newSocket st) with
                    | Ok ds => ds
                    | Raise _ => []
                    end) ->
              d !! "pid" <> Some (AttrVal (PyInt (getpid (world st)))).
Proof.
  intros Hport.
  destruct (update_run readCfg newSocket st Hport) as (l & El & _).
  set (st0 := {| world := world st; self := self st |}).
  destruct (update_run readCfg newSocket st0 Hport) as (l0 & El0 & _).
  destruct (update_Ok_inv readCfg newSocket _ _ _ El) as [_ Hl].
  destruct (update_Ok_inv readCfg newSocket _ _ _ El0) as [_ Hl0].
  cbn [world st0] in Hl0. rewrite Hl in Hl0. injection Hl0 as <-.
  assert (as_dict readCfg newSocket st =
            (Ok (map BrewPiProcess_as_dict
                   (List.filter
                      (fun p => negb (py_eq (pid p)
                                        (PyInt (getpid (world st))))) l)),
             {| world := world st; self := {| self_list := l |} |})) as E.
  { unfold as_dict. unfold bind at 1. rewrite in_world_run.
    cbn [fst snd gets]. fold st0. unfold bind at 1. rewrite El0.
    unfold bind, gets, ret. cbn [self self_list world st0].
    rewrite as_dict_loop_spec. reflexivity. }
  exists l. split; [rewrite El; reflexivity|]. split; [exact E|].
  rewrite E. cbn [fst]. intros d Hin.
  apply in_map_iff in Hin as (p & <- & Hp).
  apply filter_In in Hp as [_ Hp]. apply negb_true_iff, py_eq_false in Hp.
  destruct (as_dict_lookups p) as (H1 & _). rewrite H1. congruence.
Qed.

End RegistryDictProperties.

Lemma registry_as_dict_spec_witness :
  exists l,
    fst (update demo_readCfg demo_socket st_quiet) = Ok l /\
    as_dict demo_readCfg demo_socket st_quiet =
      (Ok (map BrewPiProcess_as_dict
             (List.filter
                (fun p => negb (py_eq (pid p)
                                  (PyInt (getpid (world st_quiet))))) l)),
       {| world := world st_quiet; self := {| self_list := l |} |}) /\
    forall d, In d (match fst (as_dict demo_readCfg demo_socket st_quiet) with
                    | Ok ds => ds
                    | Raise _ => []
                    end) ->
              d !! "pid" <> Some (AttrVal (PyInt (getpid (world st_quiet)))).
Proof.
  apply (registry_as_dict_spec demo_readCfg demo_socket st_quiet).
  intros a. apply demo_readCfg_has_port.
Defined.

(** ** The stored list after a bulk operation *)

Lemma Forall2_In_left {A B} (R : A -> B -> Prop) (l1 : list A) (l2 : list B) :
  Forall2 R l1 l2 -> forall x, In x l1 -> exists y, In y l2 /\ R x y.
Proof.
  induction 1 as [|x y l1 l2 Hxy _ IH]; intros z Hin.
  - destruct Hin.
  - destruct Hin as [<-|Hin].
    + exists y. split; [left; reflexivity|exact Hxy].
    + destruct (IH z Hin) as (y' & Hy' & Hr). exists y'. split; [right|]; auto.
Qed.

Section StoredList.

Variable readCfg : World -> CfgArg -> Config.
Variable newSocket : Config -> BrewPiSocket.

(** X23: a bulk operation leaves the freshly enumerated list in the
    registry.  After [quitAll] and after [killAll], also when [killAll] is
    cut short by an exception, the stored list is the list that [update]
    returns in the starting world: it still names the instances that were
    just killed, until the next [update]. *)
Theorem bulk_operations_store_fresh_list (st : St) :
  (forall a, is_Some (readCfg (world st) a !! "port")) ->
  exists l,
    fst (update readCfg newSocket st) = Ok l /\
    self_list (self (snd (quitAll readCfg newSocket st))) = l /\
    self_list (self (snd (killAll readCfg newSocket st))) = l.
Proof.
  intros Hport.
  destruct (update_run readCfg newSocket st Hport) as (l & El & _).
  set (st0 := {| world := world st; self := self st |}).
  destruct (update_run readCfg newSocket st0 Hport) as (l0 & El0 & _).
  destruct (update_Ok_inv readCfg newSocket _ _ _ El) as [_ Hl].
  destruct (update_Ok_inv readCfg newSocket _ _ _ El0) as [_ Hl0].
  cbn [world st0] in Hl0. rewrite Hl in Hl0. injection Hl0 as <-.
  exists l. split; [rewrite El; reflexivity|]. split.
  - remember (quitAll readCfg newSocket st) as res eqn:E.
    unfold quitAll in E. unfold bind at 1 in E.
    rewrite in_world_run in E. cbn [fst snd gets] in E. fold st0 in E.
    unfold bind at 1 in E. rewrite El0 in E.
    unfold bind at 1 in E. cbn [gets self self_list] in E. subst res.
    match goal with
    | |- context [for_each ?fl _ ?s] =>
        destruct (for_each_quit_effects
                    (fun p => py_eq (pid p) (PyInt (getpid (world st)))) fl s)
          as (_ & _ & Hself & _)
    end.
    cbn zeta in Hself. rewrite Hself. reflexivity.
  - remember (killAll readCfg newSocket st) as res eqn:E.
    rewrite killAll_targets in E. unfold bind at 1 in E.
    rewrite in_world_run in E. cbn [fst snd gets] in E. fold st0 in E.
    unfold bind at 1 in E. rewrite El0 in E.
    unfold bind at 1 in E. cbn [gets self self_list] in E. subst res.
    match goal with
    | |- context [for_each ?fl _ ?s] =>
        destruct (for_each_kill_effects (getpid (world st)) fl) with (st := s)
          as (_ & Hself & _)
    end.
    + apply List.Forall_forall. intros p Hin. apply filter_In in Hin as [_ Hp].
      apply negb_true_iff, py_eq_false in Hp. exact Hp.
    + rewrite Hself. reflexivity.
Qed.

(** X24: [me] agrees with [update].  In a world where nothing happens in
    between, when the caller itself passes the filter, the record that [me]
    returns is one of the records that [update] stores: the caller finds
    itself in the list, under its own pid. *)
Theorem me_is_in_the_refreshed_list (st : St) (p : OsProcess) :
  env (world st) = [] ->
  (forall a, is_Some (readCfg (world st) a !! "port")) ->
  find_pid (getpid (world st)) (process_table (world st)) = Some p ->
  is_brewpi p = true ->
  exists m l,
    fst (me readCfg newSocket st) = Ok m /\
    fst (update readCfg newSocket st) = Ok l /\
    pid m = PyInt (getpid (world st)) /\
    In m l.
Proof.
  intros He Hport Hfind Hb.
  pose proof (env_step_quiet _ He) as Eq.
  destruct (Hport (cfg_argument p)) as [v Hv].
  assert (readCfg (env_step (world st)) (cfg_argument p) !! "port" = Some v)
    as Hv' by (rewrite Eq; exact Hv).
  pose proof (me_run readCfg newSocket st p v Hfind Hv') as Eme.
  rewrite Eq in Eme.
  destruct (update_run readCfg newSocket st Hport) as (l & El & Hl).
  destruct (find_pid_Some _ _ _ Hfind) as [Hpid Hin].
  assert (In p (List.filter is_brewpi (process_table (world st)))) as Hinf
    by (apply filter_In; auto).
  destruct (Forall2_In_left _ _ _ Hl p Hinf) as (bp & Hbp & Ebp & _).
  rewrite (parseProcess_run readCfg newSocket p (world st) v Hv) in Ebp.
  injection Ebp as Ebp.
  eexists _, l. rewrite Eme, El. cbn [fst].
  split; [reflexivity|]. split; [reflexivity|]. split; [reflexivity|].
  rewrite <- Hpid, Ebp. exact Hbp.
Qed.

End StoredList.

Lemma bulk_operations_store_fresh_list_witness :
  exists l,
    fst (update demo_readCfg demo_socket st_race) = Ok l /\
    self_list (self (snd (quitAll demo_readCfg demo_socket st_race))) = l /\
    self_list (self (snd (killAll demo_readCfg demo_socket st_race))) = l.
Proof.
  apply (bulk_operations_store_fresh_list demo_readCfg demo_socket st_race).
  intros a. apply demo_readCfg_has_port.
Defined.

Lemma me_is_in_the_refreshed_list_witness :
  exists m l,
    fst (me demo_readCfg demo_socket st_quiet) = Ok m /\
    fst (update demo_readCfg demo_socket st_quiet) = Ok l /\
    pid m = PyInt (getpid (world st_quiet)) /\
    In m l.
Proof.
  apply (me_is_in_the_refreshed_list demo_readCfg demo_socket st_quiet proc_100).
  - reflexivity.
  - intros a. apply demo_readCfg_has_port.
  - reflexivity.
  - reflexivity.
Defined.
